(** * Roborock calendar platform and nested-dictionary helpers

    A shallow embedding of [custom_components/roborock/calendar.py] and
    [custom_components/roborock/utils.py].

    Python dictionaries with string keys are finite maps ([gmap string _]),
    exceptions are an explicit [Raise] outcome, and the coroutines of the
    calendar entity thread a world made of the device behind the transport
    and the log of the commands issued on it. *)

From stdpp Require Import gmap strings list fin_maps.
From Stdlib Require Import ZArith Ascii.

Local Open Scope Z_scope.
Local Set Warnings "-register-all".

(** ** Python values *)

(** [datetime.datetime]: the civil fields and the time zone, a fixed offset
    from UTC in minutes ([None] for a naive value). *)
Record datetime : Type := mk_datetime {
  year : Z;
  month : Z;
  day : Z;
  hour : Z;
  minute : Z;
  second : Z;
  microsecond : Z;
  tzinfo : option Z
}.

(** [datetime.time]. *)
Record time : Type := mk_time {
  time_hour : Z;
  time_minute : Z;
  time_second : Z;
  time_microsecond : Z
}.

(** The values that reach the functions below.  Dictionary keys are strings:
    both files only ever look up string keys.  Values are finite trees: a
    dictionary that contains itself is outside the model. *)
Inductive pyval : Type :=
  | VNone
  | VBool (b : bool)
  | VInt (z : Z)
  | VStr (s : string)
  | VDatetime (d : datetime)
  | VTime (t : time)
  | VList (l : list pyval)
  | VDict (d : gmap string pyval).

(** Truth value of an object in a condition. *)
Definition truthy (v : pyval) : bool :=
  match v with
  | VNone => false
  | VBool b => b
  | VInt z => negb (z =? 0)
  | VStr s => negb (String.eqb s "")
  | VDatetime _ => true
  | VTime _ => true
  | VList l => match l with [] => false | _ => true end
  | VDict d => match map_to_list d with [] => false | _ => true end
  end.

(** Days since 1970-01-01 of a date of the proleptic Gregorian calendar. *)
Definition days_from_civil (y m d : Z) : Z :=
  let y' := if m <=? 2 then y - 1 else y in
  let era := y' / 400 in
  let yoe := y' - era * 400 in
  let mp := if 2 <? m then m - 3 else m + 9 in
  let doy := (153 * mp + 2) / 5 + d - 1 in
  let doe := yoe * 365 + yoe / 4 - yoe / 100 + doy in
  era * 146097 + doe - 719468.

(** Microseconds since the epoch of the wall-clock reading of [d]. *)
Definition wall_micros (d : datetime) : Z :=
  (((days_from_civil (year d) (month d) (day d) * 24 + hour d) * 60
    + minute d) * 60 + second d) * 1000000 + microsecond d.

(** [a == b] on datetimes: field by field between naive values, by instant
    between aware ones, never equal across the two. *)
Definition datetime_eqb (a b : datetime) : bool :=
  match tzinfo a, tzinfo b with
  | None, None =>
      (year a =? year b) && (month a =? month b) && (day a =? day b)
      && (hour a =? hour b) && (minute a =? minute b)
      && (second a =? second b) && (microsecond a =? microsecond b)
  | Some oa, Some ob =>
      wall_micros a - oa * 60000000 =? wall_micros b - ob * 60000000
  | _, _ => false
  end.

(** ** Exceptions *)

(** Which endpoint the interval validator names in its message. *)
Inductive endpoint : Type := AtStart | AtEnd.

(** The texts of the [vol.Invalid] errors, with the values formatted into
    them. *)
Inductive message : Type :=
  | Unexpected_datetime (which : endpoint) (rejected suggested : datetime)
  | Invalid_datetime_specified (value : pyval)
  | String_value_is_None
  | Value_should_be_a_string
  | Required_key_not_provided
  | Extra_keys_not_allowed
  | Other_message (text : string).

(** A [vol.Invalid]: its message and the path of keys it was raised under. *)
Record Invalid : Type := mk_Invalid {
  msg : message;
  path : list string
}.

Inductive exn : Type :=
  | VolInvalid (e : Invalid)
  | MultipleInvalid (errors : list Invalid)
  | RoborockException
  | AttributeError
  | TypeError
  | KeyError (k : string)
  | OtherException (name : string).

Inductive outcome (A : Type) : Type :=
  | Return (a : A)
  | Raise (e : exn).
Arguments Return {A} a.
Arguments Raise {A} e.

(** ** utils.py *)

(** [key_string.split(".")]: never empty, empty pieces are kept. *)
Fixpoint split_dot (s : string) : list string :=
  match s with
  | EmptyString => [EmptyString]
  | String c s' =>
      if Ascii.eqb c "."%char then EmptyString :: split_dot s'
      else match split_dot s' with
           | [] => [String c EmptyString]
           | w :: ws => String c w :: ws
           end
  end.

(** [keys[:-1]] and [keys[-1]] of a list with head [k]. *)
Fixpoint init_last (k : string) (ks : list string) : list string * string :=
  match ks with
  | [] => ([], k)
  | k' :: ks' => let '(i, l) := init_last k' ks' in (k :: i, l)
  end.

(** The loop and the final assignment of [set_nested_dict], started at the
    object [here].  The object is returned as the mutation leaves it, also
    when an exception stops the walk: the dictionaries that [setdefault]
    created on the way stay in place. *)
Fixpoint set_walk (here : pyval) (init : list string) (last : string)
    (value : pyval) : pyval * outcome unit :=
  match init with
  | [] =>
      match here with
      | VDict d => (VDict (<[last := value]> d), Return tt)
      | _ => (here, Raise TypeError)
      end
  | key :: init' =>
      match here with
      | VDict d =>
          let child := from_option id (VDict ∅) (d !! key) in
          let '(child', r) := set_walk child init' last value in
          (VDict (<[key := child']> d), r)
      | _ => (here, Raise AttributeError)
      end
  end.

Definition set_nested_dict (data : gmap string pyval) (key_string : string)
    (value : pyval) : pyval * outcome unit :=
  let keys := split_dot key_string in
  let '(init, last) :=
    match keys with
    | [] => ([], EmptyString)
    | k :: ks => init_last k ks
    end in
  set_walk (VDict data) init last value.

(** The loop of [get_nested_dict], started at the object [here]. *)
Fixpoint get_walk (here : pyval) (keys : list string) (default : pyval)
    : outcome pyval :=
  match keys with
  | [] => Return here
  | key :: keys' =>
      match here with
      | VDict d =>
          match d !! key with
          | None | Some VNone => Return default
          | Some v => get_walk v keys' default
          end
      | _ => Raise AttributeError
      end
  end.

Definition get_nested_dict (data : gmap string pyval) (key_string : string)
    (default : pyval) : outcome pyval :=
  get_walk (VDict data) (split_dot key_string) default.

(** ** calendar.py: descriptions of the timer kinds *)

Inductive RoborockCommand : Type :=
  | GET_VALLEY_ELECTRICITY_TIMER
  | SET_VALLEY_ELECTRICITY_TIMER
  | CLOSE_VALLEY_ELECTRICITY_TIMER
  | GET_DND_TIMER
  | SET_DND_TIMER
  | CLOSE_DND_TIMER.

(** The two subclasses of [RoborockBaseTimer] a reply is decoded to. *)
Inductive timer_class : Type := ValleyElectricityTimer | DnDTimer.

(** Modelled from the spec: the vendor's [RoborockBaseTimer] (the spec's
    RemoteTimer), declared in the [roborock] package and not in this
    repository; an enabled flag, a start time and an end time. *)
Record RoborockBaseTimer : Type := mk_timer {
  enabled : bool;
  start_time : pyval;
  end_time : pyval
}.

Record RoborockCalendarDescription : Type := mk_description {
  key : string;
  name : string;
  translation_key : string;
  base_class : timer_class;
  get_command : RoborockCommand;
  update_command : RoborockCommand;
  delete_command : RoborockCommand
}.

(** The mapping keeps its insertion order: setup walks it in that order. *)
Definition VACUUM_CALENDARS : list (string * RoborockCalendarDescription) :=
  [ ("valley_electricity_timer",
     {| key := "valley_electricity_timer";
        name := "Valley Electricity";
        translation_key := "valley_electricity_timer";
        base_class := ValleyElectricityTimer;
        get_command := GET_VALLEY_ELECTRICITY_TIMER;
        update_command := SET_VALLEY_ELECTRICITY_TIMER;
        delete_command := CLOSE_VALLEY_ELECTRICITY_TIMER |});
    ("dnd_timer",
     {| key := "dnd_timer";
        name := "Do not disturb";
        translation_key := "dnd_timer";
        base_class := DnDTimer;
        get_command := GET_DND_TIMER;
        update_command := SET_DND_TIMER;
        delete_command := CLOSE_DND_TIMER |}) ].

(** ** The host and the device *)

(** One remote command as it goes out on the transport: the API client it
    is sent through, the command, its positional parameters and the class
    the reply is decoded to. *)
Record call : Type := mk_call {
  via : string;
  command : RoborockCommand;
  params : option (list Z);
  return_type : timer_class
}.

(** What the transport answers: a decoded value (possibly [None]) or an
    exception. *)
Inductive response : Type :=
  | Replied (value : option RoborockBaseTimer)
  | Failed (e : exn).

(** A validator in the sense of voluptuous: it returns the value, possibly
    coerced, or raises [vol.Invalid] with a message. *)
Inductive checked : Type :=
  | Valid (value : pyval)
  | Rejected (m : message).

Definition validator : Type := pyval -> checked.

(** The host's [CalendarEvent], with the fields the entity fills in.  It is
    a dataclass: its constructor stores the fields as they are given and
    then runs the host's validation of the event, which raises when it
    rejects them. *)
Record CalendarEvent : Type := mk_event {
  start : pyval;
  end_ : pyval;
  summary : string;
  description : string;
  location : string;
  recurrence_id : string;
  rrule : string;
  uid : string
}.

(** What the platform takes from outside this file: the device behind the
    API client, the vendor's canonicalization of an interval, the host's
    datetime parser, [str], the host's table of entity-service fields (every
    key of it is [vol.Optional]), the table of models in [const.py],
    [slugify], and the validation that the host's [CalendarEvent] runs on a
    new event. *)
Class Host : Type := mk_Host {
  Dev : Type;
  transport : Dev -> call -> response * Dev;
  CalendarEvent_post_init : CalendarEvent -> outcome unit;
  parse_datetime_to_roborock_datetime :
    datetime -> datetime -> datetime * datetime;
  parse_datetime : string -> option datetime;
  str : pyval -> string;
  ENTITY_SERVICE_FIELDS : list (string * validator);
  MODELS_VACUUM_WITH_MOP : list string;
  slugify : string -> string
}.

(** [device_info]: the model and the device's [duid]. *)
Record RoborockHassDeviceInfo : Type := mk_device_info {
  model : string;
  duid : string
}.

(** A coordinator: the name of its API client and its data, [None] when it
    has none. *)
Record Coordinator : Type := mk_coordinator {
  api : string;
  data : option RoborockHassDeviceInfo
}.

(** ** The calendar entity *)

(** [_event_value] is the attribute the constructor sets and [event] reads;
    [event_value] is the one setup assigns after construction. *)
Record RoborockCalendar : Type := mk_calendar {
  unique_id : string;
  device_info : RoborockHassDeviceInfo;
  coordinator : Coordinator;
  entity_description : RoborockCalendarDescription;
  _event_value : option RoborockBaseTimer;
  event_value : option RoborockBaseTimer
}.

Definition RoborockCalendar_init (unique_id : string)
    (device_info : RoborockHassDeviceInfo) (coordinator : Coordinator)
    (description : RoborockCalendarDescription)
    (initial_event_value : option RoborockBaseTimer) : RoborockCalendar :=
  {| unique_id := unique_id;
     device_info := device_info;
     coordinator := coordinator;
     entity_description := description;
     _event_value := initial_event_value;
     event_value := None |}.

(** [self.event_value = value]. *)
Definition set_event_value (self : RoborockCalendar)
    (value : option RoborockBaseTimer) : RoborockCalendar :=
  {| unique_id := unique_id self;
     device_info := device_info self;
     coordinator := coordinator self;
     entity_description := entity_description self;
     _event_value := _event_value self;
     event_value := value |}.

(** [self._event_value = value]. *)
Definition set__event_value (self : RoborockCalendar)
    (value : option RoborockBaseTimer) : RoborockCalendar :=
  {| unique_id := unique_id self;
     device_info := device_info self;
     coordinator := coordinator self;
     entity_description := entity_description self;
     _event_value := value;
     event_value := event_value self |}.

(** [CalendarEvent(...)]: the fields as given, once the host's validation
    has let them through. *)
Definition CalendarEvent_init `{Host} (fields : CalendarEvent)
    : outcome CalendarEvent :=
  match CalendarEvent_post_init fields with
  | Return _ => Return fields
  | Raise x => Raise x
  end.

(** The [event] property.  A timer object is truthy, so the condition is
    decided by [_event_value] being set and by its [enabled] flag; the
    event is constructed only when the condition holds, and the property
    raises what the constructor raises. *)
Definition event `{Host} (self : RoborockCalendar)
    : outcome (option CalendarEvent) :=
  match _event_value self with
  | Some event_value =>
      if enabled event_value then
        match
          CalendarEvent_init
            {| start := start_time event_value;
               end_ := end_time event_value;
               summary := name (entity_description self);
               description := name (entity_description self);
               location := "Home";
               recurrence_id := key (entity_description self);
               rrule := "FREQ=DAILY";
               uid := key (entity_description self) |}
        with
        | Return e => Return (Some e)
        | Raise x => Raise x
        end
      else Return None
  | None => Return None
  end.

(** [async_get_events] awaits nothing; an event object is truthy.  The
    property depends on the entity alone, so its two reads agree; an
    exception of the first read leaves the coroutine. *)
Definition async_get_events `{Host} (self : RoborockCalendar) (hass : unit)
    (start_date end_date : datetime) : outcome (list CalendarEvent) :=
  match event self with
  | Return (Some e) => Return [e]
  | Return None => Return []
  | Raise x => Raise x
  end.

(** ** Validation of an event payload *)

Definition EVENT_START : string := "dtstart".
Definition EVENT_END : string := "dtend".
Definition EVENT_SUMMARY : string := "summary".
Definition EVENT_DESCRIPTION : string := "description".
Definition EVENT_LOCATION : string := "location".
Definition EVENT_RRULE : string := "rrule".

(** [obj.get(k)]. *)
Definition dict_get (obj : gmap string pyval) (k : string) : pyval :=
  from_option id VNone (obj !! k).

(** [obj[k]]. *)
Definition getitem (obj : gmap string pyval) (k : string) : outcome pyval :=
  match obj !! k with
  | Some v => Return v
  | None => Raise (KeyError k)
  end.

(** The attributes [.hour] and [.minute]; datetimes and times have them. *)
Definition attr_hour (v : pyval) : outcome Z :=
  match v with
  | VDatetime d => Return (hour d)
  | VTime t => Return (time_hour t)
  | _ => Raise AttributeError
  end.

Definition attr_minute (v : pyval) : outcome Z :=
  match v with
  | VDatetime d => Return (minute d)
  | VTime t => Return (time_minute t)
  | _ => Raise AttributeError
  end.

Inductive marker : Type := Required | Optional.

(** One entry of a mapping schema: [marker(key): value_schema]. *)
Record schema_entry : Type := mk_entry {
  entry_marker : marker;
  entry_key : string;
  value_schema : validator
}.

(** [{..., **more}] in a dictionary display: an entry whose key is already
    there keeps the key object, hence its marker, and takes the new value;
    a new key is appended, here under [vol.Optional]. *)
Fixpoint display_update (entries : list schema_entry) (k : string)
    (v : validator) : list schema_entry :=
  match entries with
  | [] => [ {| entry_marker := Optional; entry_key := k; value_schema := v |} ]
  | e :: rest =>
      if String.eqb (entry_key e) k
      then {| entry_marker := entry_marker e; entry_key := entry_key e;
              value_schema := v |} :: rest
      else e :: display_update rest k v
  end.

Definition display_unpack (entries : list schema_entry)
    (more : list (string * validator)) : list schema_entry :=
  foldl (fun acc kv => display_update acc (fst kv) (snd kv)) entries more.

Definition find_entry (entries : list schema_entry) (k : string)
    : option schema_entry :=
  List.find (fun e => String.eqb (entry_key e) k) entries.

(** The verdict of a mapping schema on one item of the data: the value
    schema of the entry with that key, or "extra keys not allowed". *)
Definition check_item (entries : list schema_entry) (k : string) (v : pyval)
    : checked :=
  match find_entry entries k with
  | Some e => value_schema e v
  | None => Rejected Extra_keys_not_allowed
  end.

Definition item_errors (entries : list schema_entry)
    (data : gmap string pyval) : list Invalid :=
  omap (fun kv =>
          match check_item entries (fst kv) (snd kv) with
          | Valid _ => None
          | Rejected m => Some {| msg := m; path := [fst kv] |}
          end) (map_to_list data).

(** A required key counts as provided as soon as the data has it, also when
    its value is rejected. *)
Definition missing_errors (entries : list schema_entry)
    (data : gmap string pyval) : list Invalid :=
  omap (fun e =>
          match entry_marker e, data !! entry_key e with
          | Required, None =>
              Some {| msg := Required_key_not_provided;
                      path := [entry_key e] |}
          | _, _ => None
          end) entries.

Definition checked_items (entries : list schema_entry)
    (data : gmap string pyval) : gmap string pyval :=
  map_imap (fun k v =>
              match check_item entries k v with
              | Valid v' => Some v'
              | Rejected _ => None
              end) data.

(** A voluptuous schema made of a dictionary with marked literal keys and
    no extra keys allowed: every error is collected, the items' first and
    then the required keys not provided. *)
Definition mapping_schema (entries : list schema_entry)
    (data : gmap string pyval) : outcome (gmap string pyval) :=
  match item_errors entries data ++ missing_errors entries data with
  | [] => Return (checked_items entries data)
  | errors => Raise (MultipleInvalid errors)
  end.

(** [vol.Schema(vol.All(first, second))] called on [data]: the validators
    run in sequence, a bare [vol.Invalid] leaves the schema wrapped in a
    [MultipleInvalid], any other exception leaves it as it is. *)
Definition Schema_All
    (first second : gmap string pyval -> outcome (gmap string pyval))
    (data : gmap string pyval) : outcome (gmap string pyval) :=
  match first data with
  | Return v =>
      match second v with
      | Raise (VolInvalid e) => Raise (MultipleInvalid [e])
      | r => r
      end
  | Raise (VolInvalid e) => Raise (MultipleInvalid [e])
  | Raise e => Raise e
  end.

Section Calendar.
Context `{Host}.

(** [cv.datetime]: a datetime is returned as it is, a string is parsed,
    anything else is rejected. *)
Definition cv_datetime (value : pyval) : checked :=
  match value with
  | VDatetime _ => Valid value
  | VStr s =>
      match parse_datetime s with
      | Some d => Valid (VDatetime d)
      | None => Rejected (Invalid_datetime_specified value)
      end
  | _ => Rejected (Invalid_datetime_specified value)
  end.

(** [cv.string]: coerces to a string, except [None], lists and
    dictionaries. *)
Definition cv_string (value : pyval) : checked :=
  match value with
  | VNone => Rejected String_value_is_None
  | VStr _ => Valid value
  | VList _ | VDict _ => Rejected Value_should_be_a_string
  | _ => Valid (VStr (str value))
  end.

(** The validator returned by [_has_roborock_interval(start_key, end_key)].
    The canonicalization is declared on datetimes; on other truthy values
    the call raises. *)
Definition _has_roborock_interval (start_key end_key : string)
    (obj : gmap string pyval) : outcome (gmap string pyval) :=
  let start_time := dict_get obj start_key in
  if truthy start_time && truthy (dict_get obj end_key) then
    let end_time := dict_get obj end_key in
    match start_time, end_time with
    | VDatetime start_time, VDatetime end_time =>
        let '(parsed_start_time, parsed_end_time) :=
          parse_datetime_to_roborock_datetime start_time end_time in
        if negb (datetime_eqb parsed_start_time start_time) then
          Raise (VolInvalid
                   {| msg := Unexpected_datetime AtStart start_time
                               parsed_start_time;
                      path := [] |})
        else if negb (datetime_eqb parsed_end_time end_time) then
          Raise (VolInvalid
                   {| msg := Unexpected_datetime AtEnd end_time
                               parsed_end_time;
                      path := [] |})
        else Return obj
    | _, _ => Raise TypeError
    end
  else Return obj.

Definition EVENT_SCHEMA_entries : list schema_entry :=
  display_unpack
    [ {| entry_marker := Required; entry_key := EVENT_START;
         value_schema := cv_datetime |};
      {| entry_marker := Required; entry_key := EVENT_END;
         value_schema := cv_datetime |};
      {| entry_marker := Required; entry_key := EVENT_SUMMARY;
         value_schema := cv_string |};
      {| entry_marker := Optional; entry_key := EVENT_DESCRIPTION;
         value_schema := cv_string |};
      {| entry_marker := Optional; entry_key := EVENT_LOCATION;
         value_schema := cv_string |};
      {| entry_marker := Optional; entry_key := EVENT_RRULE;
         value_schema := cv_string |} ]
    ENTITY_SERVICE_FIELDS.

Definition EVENT_SCHEMA (event : gmap string pyval)
    : outcome (gmap string pyval) :=
  Schema_All (mapping_schema EVENT_SCHEMA_entries)
    (_has_roborock_interval EVENT_START EVENT_END) event.

End Calendar.

(** ** The coroutines *)

Section Coroutines.
Context `{Host}.

(** The world a coroutine runs in: the device, the commands issued so far
    with their replies, and the entity lists handed to
    [async_add_entities].  One flow of control awaits each command before
    the next, so the coroutines are sequential state transformers. *)
Record world : Type := mk_world {
  device : Dev;
  calls : list (call * response);
  added : list (list RoborockCalendar)
}.

Definition M (A : Type) : Type := world -> outcome A * world.

#[export] Instance M_ret : MRet M := fun A a w => (Return a, w).

#[export] Instance M_bind : MBind M := fun A B f m w =>
  match m w with
  | (Return a, w') => f a w'
  | (Raise e, w') => (Raise e, w')
  end.

(** A computation that touches nothing. *)
Definition pure {A : Type} (o : outcome A) : M A := fun w => (o, w).

(** [coordinator.api.send_command(command, params, return_type=...)]: the
    command goes out, the device moves on, the reply comes back. *)
Definition send_command (api : string) (command : RoborockCommand)
    (params : option (list Z)) (return_type : timer_class)
    : M (option RoborockBaseTimer) :=
  fun w =>
    let c := {| via := api; command := command; params := params;
                return_type := return_type |} in
    let '(r, d) := transport (device w) c in
    (match r with Replied v => Return v | Failed e => Raise e end,
     {| device := d; calls := calls w ++ [(c, r)]; added := added w |}).

(** Modelled from the spec: [send] of [RoborockCoordinatedEntity]
    ([device.py] is not among the sources), one remote command invocation
    through the API client of the entity's coordinator. *)
Definition send (self : RoborockCalendar) (command : RoborockCommand)
    (params : option (list Z)) (return_type : timer_class)
    : M (option RoborockBaseTimer) :=
  send_command (api (coordinator self)) command params return_type.

Definition async_add_entities (entities : list RoborockCalendar)
    : M unit :=
  fun w =>
    (Return tt,
     {| device := device w; calls := calls w;
        added := added w ++ [entities] |}).

(** [with contextlib.suppress(RoborockException): x = await m], with [x]
    bound to [None] before the block. *)
Definition suppress_RoborockException
    (m : M (option RoborockBaseTimer)) : M (option RoborockBaseTimer) :=
  fun w =>
    match m w with
    | (Raise RoborockException, w') => (Return None, w')
    | r => r
    end.

(** The loop over the timer kinds of one coordinator; the debug message of
    a skipped kind leaves no trace in the world. *)
Fixpoint probe_sensors (coordinator : Coordinator)
    (device_info : RoborockHassDeviceInfo) (unique_id : string)
    (sensors : list (string * RoborockCalendarDescription))
    (entities : list RoborockCalendar) : M (list RoborockCalendar) :=
  match sensors with
  | [] => mret entities
  | (sensor, description) :: sensors' =>
      initial_event_value ←
        suppress_RoborockException
          (send_command (api coordinator) (get_command description) None
             (base_class description));
      match initial_event_value with
      | None =>
          probe_sensors coordinator device_info unique_id sensors' entities
      | Some value =>
          let roborock_calendar :=
            RoborockCalendar_init (sensor +:+ "_" +:+ unique_id)
              device_info coordinator description initial_event_value in
          let roborock_calendar :=
            set_event_value roborock_calendar initial_event_value in
          probe_sensors coordinator device_info unique_id sensors'
            (entities ++ [roborock_calendar])
      end
  end.

(** The loop over the coordinators.  [None] is the [return] in the loop
    body, which leaves the function before [async_add_entities]; reading
    [.model] of absent data raises.  Past that read [coordinator.data] is
    an object, hence truthy, and the kinds are probed. *)
Fixpoint setup_coordinators (coordinators : list Coordinator)
    (entities : list RoborockCalendar)
    : M (option (list RoborockCalendar)) :=
  match coordinators with
  | [] => mret (Some entities)
  | coordinator :: coordinators' =>
      match data coordinator with
      | None => pure (Raise AttributeError)
      | Some device_info =>
          if negb (bool_decide (model device_info ∈ MODELS_VACUUM_WITH_MOP))
          then mret None
          else
            let sensors := VACUUM_CALENDARS in
            let unique_id := slugify (duid device_info) in
            entities' ← probe_sensors coordinator device_info unique_id
                          sensors entities;
            setup_coordinators coordinators' entities'
      end
  end.

(** [async_setup_entry], given the coordinators of the config entry. *)
Definition async_setup_entry (coordinators : list Coordinator) : M unit :=
  r ← setup_coordinators coordinators [];
  match r with
  | None => mret tt
  | Some entities => async_add_entities entities
  end.

Definition async_update (self : RoborockCalendar) : M RoborockCalendar :=
  value ← send_command (api (coordinator self))
            (get_command (entity_description self)) None
            (base_class (entity_description self));
  mret (set__event_value self value).

Definition async_update_event (self : RoborockCalendar) (uid : string)
    (event : gmap string pyval)
    (recurrence_id recurrence_range : option string) : M unit :=
  valid_event ← pure (EVENT_SCHEMA event);
  start_time ← pure (getitem valid_event EVENT_START);
  end_time ← pure (getitem valid_event EVENT_END);
  start_hour ← pure (attr_hour start_time);
  start_minute ← pure (attr_minute start_time);
  end_hour ← pure (attr_hour end_time);
  end_minute ← pure (attr_minute end_time);
  _ ← send self (update_command (entity_description self))
        (Some [start_hour; start_minute; end_hour; end_minute])
        (base_class (entity_description self));
  mret tt.

Definition async_create_event (self : RoborockCalendar)
    (kwargs : gmap string pyval) : M unit :=
  async_update_event self (key (entity_description self)) kwargs None None.

Definition async_delete_event (self : RoborockCalendar) (uid : string)
    (recurrence_id recurrence_range : option string) : M unit :=
  _ ← send self (delete_command (entity_description self)) None
        (base_class (entity_description self));
  mret tt.

Definition async_delete_event_service (self : RoborockCalendar) : M unit :=
  async_delete_event self (key (entity_description self)) None None.

Definition async_update_event_service (self : RoborockCalendar)
    (dtstart dtend : time) : M unit :=
  async_update_event self (key (entity_description self))
    (<["dtstart" := VTime dtstart]> (<["dtend" := VTime dtend]> ∅))
    None None.

End Coroutines.

(** ** The canonical form of the spec, and a sample host *)

(** Modelled from the spec: the canonical form of a timestamp, which the
    spec gives as the value truncated to whole minutes.  The function that
    computes it, [parse_datetime_to_roborock_datetime], belongs to the
    [roborock] package and is not among the sources. *)
Definition truncate_to_minute (d : datetime) : datetime :=
  {| year := year d; month := month d; day := day d;
     hour := hour d; minute := minute d;
     second := 0; microsecond := 0; tzinfo := tzinfo d |}.

Definition canonical_interval (start_datetime end_datetime : datetime)
    : datetime * datetime :=
  (truncate_to_minute start_datetime, truncate_to_minute end_datetime).

(** A device for the examples: it has no valley-electricity timer and its
    do-not-disturb window runs from 08:00 to 08:30; the state counts the
    commands received. *)
Definition sample_timer : RoborockBaseTimer :=
  {| enabled := true;
     start_time := VTime (mk_time 8 0 0 0);
     end_time := VTime (mk_time 8 30 0 0) |}.

Definition sample_transport (n : nat) (c : call) : response * nat :=
  (match command c with
   | GET_VALLEY_ELECTRICITY_TIMER => Failed RoborockException
   | GET_DND_TIMER => Replied (Some sample_timer)
   | _ => Replied None
   end, S n).

(** The validation of the sample host: the start and the end of an event
    are datetimes; times of day are rejected. *)
Definition sample_post_init (e : CalendarEvent) : outcome unit :=
  match start e, end_ e with
  | VDatetime _, VDatetime _ => Return tt
  | _, _ => Raise (OtherException "HomeAssistantError")
  end.

Definition sample_host : Host :=
  {| Dev := nat;
     transport := sample_transport;
     CalendarEvent_post_init := sample_post_init;
     parse_datetime_to_roborock_datetime := canonical_interval;
     parse_datetime := fun _ => None;
     str := fun _ => EmptyString;
     ENTITY_SERVICE_FIELDS := [("entity_id", Valid); ("device_id", Valid);
                               ("area_id", Valid)];
     MODELS_VACUUM_WITH_MOP := ["roborock.vacuum.a15"];
     slugify := id |}.

Definition sample_coordinator : Coordinator :=
  {| api := "vacuum";
     data := Some {| model := "roborock.vacuum.a15"; duid := "abc" |} |}.

Definition sample_calendar : RoborockCalendar :=
  RoborockCalendar_init "dnd_timer_abc"
    {| model := "roborock.vacuum.a15"; duid := "abc" |} sample_coordinator
    {| key := "dnd_timer";
       name := "Do not disturb";
       translation_key := "dnd_timer";
       base_class := DnDTimer;
       get_command := GET_DND_TIMER;
       update_command := SET_DND_TIMER;
       delete_command := CLOSE_DND_TIMER |}
    (Some sample_timer).

Definition sample_world : @world sample_host :=
  @mk_world sample_host 0%nat [] [].

(** 22:15:00, 22:15:30 and 06:05:00 on two days of January 2024. *)
Definition at_22_15 : datetime := mk_datetime 2024 1 1 22 15 0 0 None.
Definition at_22_15_30 : datetime := mk_datetime 2024 1 1 22 15 30 0 None.
Definition at_06_05 : datetime := mk_datetime 2024 1 2 6 5 0 0 None.

(** The do-not-disturb entity holding a window given by two datetimes,
    22:15 to 06:05, enabled and disabled. *)
Definition overnight_timer (on : bool) : RoborockBaseTimer :=
  {| enabled := on;
     start_time := VDatetime at_22_15;
     end_time := VDatetime at_06_05 |}.

Definition overnight_calendar (on : bool) : RoborockCalendar :=
  set__event_value sample_calendar (Some (overnight_timer on)).

(** ** Vocabulary of the statements *)

(** The entries hold a required key [k]. *)
Definition requires (entries : list schema_entry) (k : string) : Prop :=
  exists e, e ∈ entries /\ entry_marker e = Required /\ entry_key e = k.

(** Payloads for the examples: the update of the do-not-disturb window to
    22:15-06:05, and the same with thirty seconds too many at the start. *)
Definition payload_22_15 : gmap string pyval :=
  <["dtstart" := VDatetime at_22_15]>
    (<["dtend" := VDatetime at_06_05]> (<["summary" := VStr "Quiet"]> ∅)).

Definition payload_22_15_30 : gmap string pyval :=
  <["dtstart" := VDatetime at_22_15_30]>
    (<["dtend" := VDatetime at_06_05]> (<["summary" := VStr "Quiet"]> ∅)).

(** The fetch of a timer kind as it goes out on a coordinator's API. *)
Definition probe (c : Coordinator) (d : RoborockCalendarDescription) : call :=
  {| via := api c; command := get_command d; params := None;
     return_type := base_class d |}.

(** The timer kinds in the order setup probes them, coordinator after
    coordinator. *)
Definition probes_of (cs : list Coordinator)
    : list (Coordinator * (string * RoborockCalendarDescription)) :=
  flat_map (fun c => map (pair c) VACUUM_CALENDARS) cs.

(** The entity that a reply to the probe of a timer kind gives rise to: one
    for a timer, none for [None] and none for an exception. *)
Definition entity_of_reply `{Host}
    (p : Coordinator * (string * RoborockCalendarDescription) * response)
    : option RoborockCalendar :=
  match data p.1.1, p.2 with
  | Some info, Replied (Some value) =>
      Some {| unique_id := p.1.2.1 +:+ "_" +:+ slugify (duid info);
              device_info := info;
              coordinator := p.1.1;
              entity_description := p.1.2.2;
              _event_value := Some value;
              event_value := Some value |}
  | _, _ => None
  end.

(** The transport fails with device or communication errors only. *)
Definition fails_softly `{Host} : Prop :=
  forall d c e d', transport d c = (Failed e, d') -> e = RoborockException.

(** Every key of the path, walked from [here], finds nothing or a nested
    dictionary. *)
Fixpoint free_or_nested (here : pyval) (keys : list string) : bool :=
  match keys with
  | [] => true
  | key :: keys' =>
      match here with
      | VDict d =>
          match d !! key with
          | None => true
          | Some (VDict d') => free_or_nested (VDict d') keys'
          | Some _ => false
          end
      | _ => false
      end
  end.

(** Walked from [here] through nested dictionaries, the path comes to a key
    that is absent or maps to [None]. *)
Fixpoint absent_or_none (here : pyval) (keys : list string) : bool :=
  match keys with
  | [] => false
  | key :: keys' =>
      match here with
      | VDict d =>
          match d !! key with
          | None | Some VNone => true
          | Some v => absent_or_none v keys'
          end
      | _ => false
      end
  end.

(** [{"a": {"x": 1}}]. *)
Definition sample_dict : gmap string pyval :=
  <["a" := VDict (<["x" := VInt 1]> ∅)]> ∅.

(** [keys[:-1]] and [keys[-1]] of the path [key_string], as
    [set_nested_dict] takes them. *)
Definition path_split (key_string : string) : list string * string :=
  match split_dot key_string with
  | [] => ([], EmptyString)
  | k :: ks => init_last k ks
  end.

(** A dictionary, as opposed to any other object. *)
Definition is_dict (v : pyval) : bool :=
  match v with
  | VDict _ => true
  | _ => false
  end.

(** Walked from [here] through nested dictionaries, the path comes, before
    its last key, to a key that maps to an object that is neither [None] nor
    a dictionary. *)
Fixpoint scalar_on_path (here : pyval) (keys : list string) : bool :=
  match keys with
  | [] => false
  | key :: keys' =>
      match here with
      | VDict d =>
          match d !! key with
          | None | Some VNone => false
          | Some (VDict d') => scalar_on_path (VDict d') keys'
          | Some _ => match keys' with [] => false | _ => true end
          end
      | _ => false
      end
  end.

(** The string has no ".". *)
Fixpoint dotless (s : string) : bool :=
  match s with
  | EmptyString => true
  | String c s' => negb (Ascii.eqb c ".") && dotless s'
  end.

(** [{"a": 5}]. *)
Definition scalar_dict : gmap string pyval := <["a" := VInt 5]> ∅.

(** What [get_nested_dict] finds after an assignment of [v]: [v] itself,
    or the default when [v] is [None]. *)
Definition found_after_set (v default : pyval) : pyval :=
  match v with
  | VNone => default
  | _ => v
  end.

(** The six keys that [EVENT_SCHEMA] spells out. *)
Definition EVENT_KEYS : list string :=
  [EVENT_START; EVENT_END; EVENT_SUMMARY; EVENT_DESCRIPTION; EVENT_LOCATION;
   EVENT_RRULE].

(** The host's table of service fields redefines none of the six keys. *)
Definition service_fields_apart `{Host} : Prop :=
  forall k, k ∈ EVENT_KEYS -> k ∉ ENTITY_SERVICE_FIELDS.*1.

(** A payload with a summary and nothing besides the start and the end but
    strings for the description, the location and the recurrence rule. *)
Definition plain_payload (event : gmap string pyval) : Prop :=
  (exists t, event !! EVENT_SUMMARY = Some (VStr t))
  /\ forall k v, event !! k = Some v ->
       k = EVENT_START \/ k = EVENT_END \/ k = EVENT_SUMMARY
       \/ (k ∈ [EVENT_DESCRIPTION; EVENT_LOCATION; EVENT_RRULE]
           /\ exists t, v = VStr t).

(** The command that [async_update_event] issues for an interval. *)
Definition update_call (self : RoborockCalendar) (s e : datetime) : call :=
  {| via := api (coordinator self);
     command := update_command (entity_description self);
     params := Some [hour s; minute s; hour e; minute e];
     return_type := base_class (entity_description self) |}.

(** The command that [async_delete_event] issues. *)
Definition delete_call (self : RoborockCalendar) : call :=
  {| via := api (coordinator self);
     command := delete_command (entity_description self);
     params := None;
     return_type := base_class (entity_description self) |}.

(** What a coroutine that issues the one command [c] and returns nothing
    makes of the world [w]. *)
Definition after_one_call `{Host} (c : call) (w : world)
    : outcome unit * world :=
  (match (transport (device w) c).1 with
   | Replied _ => Return tt
   | Failed x => Raise x
   end,
   {| device := (transport (device w) c).2;
      calls := calls w ++ [(c, (transport (device w) c).1)];
      added := added w |}).

(** A fetch: one of the two get commands, without parameters. *)
Definition is_fetch (cr : call * response) : Prop :=
  params cr.1 = None
  /\ (command cr.1 = GET_VALLEY_ELECTRICITY_TIMER
      \/ command cr.1 = GET_DND_TIMER).

(** An entity as setup builds them for the coordinators [cs]: it holds a
    timer, under both attributes, for one of the timer kinds of the table,
    on one of the coordinators, and is named after the kind and the device. *)
Definition set_up_for `{Host} (cs : list Coordinator)
    (entity : RoborockCalendar) : Prop :=
  (exists value, _event_value entity = Some value
                 /\ event_value entity = Some value)
  /\ coordinator entity ∈ cs
  /\ data (coordinator entity) = Some (device_info entity)
  /\ exists sd, sd ∈ VACUUM_CALENDARS
                /\ entity_description entity = sd.2
                /\ unique_id entity
                   = sd.1 +:+ "_" +:+ slugify (duid (device_info entity)).

(** The event that the entity shows for the timer [t]. *)
Definition event_of_timer (self : RoborockCalendar) (t : RoborockBaseTimer)
    : CalendarEvent :=
  {| start := start_time t;
     end_ := end_time t;
     summary := name (entity_description self);
     description := name (entity_description self);
     location := "Home";
     recurrence_id := key (entity_description self);
     rrule := "FREQ=DAILY";
     uid := key (entity_description self) |}.

(** A device whose firmware breaks on the valley-electricity fetch with an
    exception that is not the vendor's. *)
Definition broken_host : Host :=
  {| Dev := nat;
     transport := fun n c => (Failed (OtherException "ValueError"), S n);
     CalendarEvent_post_init := sample_post_init;
     parse_datetime_to_roborock_datetime := canonical_interval;
     parse_datetime := fun _ => None;
     str := fun _ => EmptyString;
     ENTITY_SERVICE_FIELDS := [];
     MODELS_VACUUM_WITH_MOP := ["roborock.vacuum.a15"];
     slugify := id |}.

(** A coordinator of a vacuum without a mop. *)
Definition other_coordinator : Coordinator :=
  {| api := "sweeper";
     data := Some {| model := "roborock.vacuum.s5"; duid := "xyz" |} |}.

(** * Properties *)

(** ** The interval validator *)

Lemma datetime_eqb_refl (d : datetime) : datetime_eqb d d = true.
Proof.
  unfold datetime_eqb. destruct (tzinfo d) as [o|].
  - apply Z.eqb_refl.
  - rewrite !Z.eqb_refl. reflexivity.
Qed.

Lemma dict_get_Some (obj : gmap string pyval) (k : string) (v : pyval) :
  obj !! k = Some v -> dict_get obj k = v.
Proof. intros E. unfold dict_get. rewrite E. reflexivity. Qed.

Lemma dict_get_None (obj : gmap string pyval) (k : string) :
  obj !! k = None -> dict_get obj k = VNone.
Proof. intros E. unfold dict_get. rewrite E. reflexivity. Qed.

(** What the validator does on a payload with two datetimes, in terms of the
    result of the canonicalization. *)
Lemma has_roborock_interval_datetimes `{Host} (start_key end_key : string)
    (obj : gmap string pyval) (s e ps pe : datetime) :
  obj !! start_key = Some (VDatetime s) ->
  obj !! end_key = Some (VDatetime e) ->
  parse_datetime_to_roborock_datetime s e = (ps, pe) ->
  _has_roborock_interval start_key end_key obj =
    if negb (datetime_eqb ps s) then
      Raise (VolInvalid {| msg := Unexpected_datetime AtStart s ps;
                           path := [] |})
    else if negb (datetime_eqb pe e) then
      Raise (VolInvalid {| msg := Unexpected_datetime AtEnd e pe;
                           path := [] |})
    else Return obj.
Proof.
  intros Es Ee Ep. unfold _has_roborock_interval.
  rewrite (dict_get_Some _ _ _ Es), (dict_get_Some _ _ _ Ee). simpl.
  rewrite Ep. reflexivity.
Qed.

(** C1: when the start and the end of a payload are already in canonical
    form, that is when the canonicalization gives the pair back, the
    interval validator succeeds and returns the payload it was given, whose
    start and end are the caller's values. *)
Theorem validate_accepts_canonical `{Host} (start_key end_key : string)
    (obj : gmap string pyval) (s e : datetime) :
  obj !! start_key = Some (VDatetime s) ->
  obj !! end_key = Some (VDatetime e) ->
  parse_datetime_to_roborock_datetime s e = (s, e) ->
  exists out,
    _has_roborock_interval start_key end_key obj = Return out
    /\ out = obj
    /\ out !! start_key = Some (VDatetime s)
    /\ out !! end_key = Some (VDatetime e).
Proof.
  intros Es Ee Ep. exists obj.
  rewrite (has_roborock_interval_datetimes _ _ _ _ _ _ _ Es Ee Ep).
  rewrite !datetime_eqb_refl. simpl. auto.
Qed.

Lemma validate_accepts_canonical_witness :
  exists out,
    @_has_roborock_interval sample_host "dtstart" "dtend"
      (<["dtstart" := VDatetime at_22_15]>
         (<["dtend" := VDatetime at_06_05]> ∅)) = Return out
    /\ out = <["dtstart" := VDatetime at_22_15]>
               (<["dtend" := VDatetime at_06_05]> ∅)
    /\ out !! "dtstart" = Some (VDatetime at_22_15)
    /\ out !! "dtend" = Some (VDatetime at_06_05).
Proof.
  apply (@validate_accepts_canonical sample_host "dtstart" "dtend"
           (<["dtstart" := VDatetime at_22_15]>
              (<["dtend" := VDatetime at_06_05]> ∅)) at_22_15 at_06_05);
    reflexivity.
Defined.

(** C2: with the canonical form of the spec, truncation to whole minutes,
    whenever the start or the end of a payload differs from its canonical
    form the validator raises one [vol.Invalid]; the message names an
    endpoint that did fail, start before end, and carries the rejected value
    of that endpoint together with its truncation to whole minutes. *)
Theorem validate_rejects_sub_minute `{Host} (start_key end_key : string)
    (obj : gmap string pyval) (s e : datetime) :
  (forall a b, parse_datetime_to_roborock_datetime a b
               = (truncate_to_minute a, truncate_to_minute b)) ->
  obj !! start_key = Some (VDatetime s) ->
  obj !! end_key = Some (VDatetime e) ->
  datetime_eqb (truncate_to_minute s) s = false
  \/ datetime_eqb (truncate_to_minute e) e = false ->
  exists which rejected,
    _has_roborock_interval start_key end_key obj =
      Raise (VolInvalid
               {| msg := Unexpected_datetime which rejected
                           (truncate_to_minute rejected);
                  path := [] |})
    /\ (which = AtStart /\ rejected = s \/ which = AtEnd /\ rejected = e)
    /\ (which = AtEnd -> datetime_eqb (truncate_to_minute s) s = true)
    /\ datetime_eqb (truncate_to_minute rejected) rejected = false.
Proof.
  intros Hp Es Ee Hd.
  rewrite (has_roborock_interval_datetimes _ _ _ _ _ _ _ Es Ee (Hp s e)).
  destruct (datetime_eqb (truncate_to_minute s) s) eqn:Hs; simpl.
  - destruct Hd as [Hd|Hd]; [discriminate|]. rewrite Hd. simpl.
    exists AtEnd, e. auto.
  - exists AtStart, s. split; [reflexivity|]. split; [auto|].
    split; [discriminate|assumption].
Qed.

Lemma validate_rejects_sub_minute_witness :
  exists which rejected,
    @_has_roborock_interval sample_host "dtstart" "dtend"
      (<["dtstart" := VDatetime at_22_15_30]>
         (<["dtend" := VDatetime at_06_05]> ∅)) =
      Raise (VolInvalid
               {| msg := Unexpected_datetime which rejected
                           (truncate_to_minute rejected);
                  path := [] |})
    /\ (which = AtStart /\ rejected = at_22_15_30
        \/ which = AtEnd /\ rejected = at_06_05)
    /\ (which = AtEnd ->
        datetime_eqb (truncate_to_minute at_22_15_30) at_22_15_30 = true)
    /\ datetime_eqb (truncate_to_minute rejected) rejected = false.
Proof.
  apply (@validate_rejects_sub_minute sample_host "dtstart" "dtend"
           (<["dtstart" := VDatetime at_22_15_30]>
              (<["dtend" := VDatetime at_06_05]> ∅)) at_22_15_30 at_06_05).
  - reflexivity.
  - reflexivity.
  - reflexivity.
  - left. reflexivity.
Defined.

(** C7: when the start key or the end key is absent from the payload, the
    validator canonicalizes nothing and returns the payload as it is. *)
Theorem validate_skips_missing_endpoint `{Host} (start_key end_key : string)
    (obj : gmap string pyval) :
  obj !! start_key = None \/ obj !! end_key = None ->
  _has_roborock_interval start_key end_key obj = Return obj.
Proof.
  intros [E|E]; unfold _has_roborock_interval.
  - rewrite (dict_get_None _ _ E). reflexivity.
  - rewrite (dict_get_None _ _ E). simpl. rewrite andb_false_r. reflexivity.
Qed.

Lemma validate_skips_missing_endpoint_witness :
  @_has_roborock_interval sample_host "dtstart" "dtend"
    (<["dtstart" := VDatetime at_22_15_30]> ∅)
  = Return (<["dtstart" := VDatetime at_22_15_30]> ∅).
Proof.
  apply (@validate_skips_missing_endpoint sample_host "dtstart" "dtend"
           (<["dtstart" := VDatetime at_22_15_30]> ∅)).
  right. reflexivity.
Defined.

(** ** Mapping schemas *)

Lemma find_entry_display_update_ne (entries : list schema_entry)
    (k k' : string) (v : validator) :
  k <> k' ->
  find_entry (display_update entries k' v) k = find_entry entries k.
Proof.
  intros Hne. unfold find_entry.
  induction entries as [|e rest IH]; simpl.
  - destruct (String.eqb_spec k' k); [congruence|reflexivity].
  - destruct (String.eqb_spec (entry_key e) k') as [E1|E1]; simpl.
    + destruct (String.eqb_spec (entry_key e) k); [congruence|reflexivity].
    + destruct (String.eqb_spec (entry_key e) k); [reflexivity|apply IH].
Qed.

Lemma find_entry_display_unpack (more : list (string * validator))
    (entries : list schema_entry) (k : string) :
  k ∉ more.*1 ->
  find_entry (display_unpack entries more) k = find_entry entries k.
Proof.
  unfold display_unpack. revert entries.
  induction more as [|[k' v] more IH]; intros entries Hk; simpl.
  - reflexivity.
  - rewrite fmap_cons, not_elem_of_cons in Hk. destruct Hk as [Hne Hk].
    rewrite (IH _ Hk). apply find_entry_display_update_ne. exact Hne.
Qed.

Lemma requires_display_update (entries : list schema_entry)
    (k k' : string) (v : validator) :
  requires entries k -> requires (display_update entries k' v) k.
Proof.
  intros (e & Hin & Hm & Hk).
  induction entries as [|e0 rest IH]; [inversion Hin|].
  simpl. destruct (String.eqb_spec (entry_key e0) k') as [E|E].
  - apply elem_of_cons in Hin as [->|Hin].
    + eexists. split; [left|]. simpl. auto.
    + exists e. split; [right; exact Hin|auto].
  - apply elem_of_cons in Hin as [->|Hin].
    + exists e0. split; [left|auto].
    + destruct (IH Hin) as (e' & Hin' & Hm' & Hk').
      exists e'. split; [right; exact Hin'|auto].
Qed.

Lemma requires_display_unpack (more : list (string * validator))
    (entries : list schema_entry) (k : string) :
  requires entries k -> requires (display_unpack entries more) k.
Proof.
  unfold display_unpack. revert entries.
  induction more as [|[k' v] more IH]; intros entries Hr; simpl.
  - exact Hr.
  - apply IH, requires_display_update, Hr.
Qed.

Lemma missing_errors_required (entries : list schema_entry)
    (data : gmap string pyval) (k : string) :
  requires entries k -> data !! k = None ->
  {| msg := Required_key_not_provided; path := [k] |}
    ∈ missing_errors entries data.
Proof.
  intros (e & Hin & Hm & Hk) Hd. unfold missing_errors.
  apply list_elem_of_omap. exists e. split; [exact Hin|].
  rewrite Hm, Hk, Hd. reflexivity.
Qed.

Lemma item_errors_rejected (entries : list schema_entry)
    (data : gmap string pyval) (k : string) (v : pyval) (m : message) :
  data !! k = Some v -> check_item entries k v = Rejected m ->
  {| msg := m; path := [k] |} ∈ item_errors entries data.
Proof.
  intros Hd Hc. unfold item_errors.
  apply list_elem_of_omap. exists (k, v). split.
  - apply elem_of_map_to_list. exact Hd.
  - simpl. rewrite Hc. reflexivity.
Qed.

(** One error is enough for the schema to raise all of them. *)
Lemma mapping_schema_raises (entries : list schema_entry)
    (data : gmap string pyval) (x : Invalid) :
  x ∈ item_errors entries data ++ missing_errors entries data ->
  mapping_schema entries data =
    Raise (MultipleInvalid
             (item_errors entries data ++ missing_errors entries data)).
Proof.
  intros Hx. unfold mapping_schema.
  destruct (item_errors entries data ++ missing_errors entries data).
  - inversion Hx.
  - reflexivity.
Qed.

(** A schema that returns found no error, and returns the checked items. *)
Lemma mapping_schema_returns (entries : list schema_entry)
    (data out : gmap string pyval) :
  mapping_schema entries data = Return out ->
  item_errors entries data = [] /\ missing_errors entries data = []
  /\ out = checked_items entries data.
Proof.
  unfold mapping_schema.
  destruct (item_errors entries data ++ missing_errors entries data)
    as [|x l] eqn:E; [|discriminate].
  intros [= <-]. apply app_eq_nil in E as [E1 E2]. auto.
Qed.

Lemma item_errors_nil_valid (entries : list schema_entry)
    (data : gmap string pyval) (k : string) (v : pyval) :
  item_errors entries data = [] -> data !! k = Some v ->
  exists v', check_item entries k v = Valid v'.
Proof.
  intros E Hd. destruct (check_item entries k v) as [v'|m] eqn:Hc.
  - exists v'. reflexivity.
  - pose proof (item_errors_rejected _ _ _ _ _ Hd Hc) as Hin.
    rewrite E in Hin. inversion Hin.
Qed.

Lemma missing_errors_nil_present (entries : list schema_entry)
    (data : gmap string pyval) (k : string) :
  missing_errors entries data = [] -> requires entries k ->
  exists v, data !! k = Some v.
Proof.
  intros E Hr. destruct (data !! k) as [v|] eqn:Hd.
  - exists v. reflexivity.
  - pose proof (missing_errors_required _ _ _ Hr Hd) as Hin.
    rewrite E in Hin. inversion Hin.
Qed.

Lemma checked_items_lookup (entries : list schema_entry)
    (data : gmap string pyval) (k : string) (v v' : pyval) :
  data !! k = Some v -> check_item entries k v = Valid v' ->
  checked_items entries data !! k = Some v'.
Proof.
  intros Hd Hc. unfold checked_items.
  rewrite map_lookup_imap, Hd. simpl. rewrite Hc. reflexivity.
Qed.

(** The interval validator returns nothing but its argument. *)
Lemma has_roborock_interval_returns `{Host} (start_key end_key : string)
    (obj out : gmap string pyval) :
  _has_roborock_interval start_key end_key obj = Return out -> out = obj.
Proof.
  unfold _has_roborock_interval.
  destruct (truthy _ && truthy _); [|congruence].
  destruct (dict_get obj start_key); try discriminate.
  destruct (dict_get obj end_key); try discriminate.
  destruct (parse_datetime_to_roborock_datetime _ _) as [ps pe].
  destruct (negb _); [discriminate|].
  destruct (negb _); [discriminate|]. congruence.
Qed.

Section EventSchema.
Context `{Host}.

Lemma EVENT_SCHEMA_requires (k : string) :
  k = EVENT_START \/ k = EVENT_END \/ k = EVENT_SUMMARY ->
  requires EVENT_SCHEMA_entries k.
Proof.
  intros Hk. apply requires_display_unpack.
  destruct Hk as [-> | [-> | ->]]; eexists.
  - split; [apply list_elem_of_here|split; reflexivity].
  - split; [apply list_elem_of_further, list_elem_of_here|].
    split; reflexivity.
  - split; [do 2 apply list_elem_of_further; apply list_elem_of_here|].
    split; reflexivity.
Qed.

(** Unless the host's table redefines them, the start and the end are
    checked by [cv.datetime]. *)
Lemma check_item_datetime (k : string) (v : pyval) :
  k = EVENT_START \/ k = EVENT_END ->
  k ∉ ENTITY_SERVICE_FIELDS.*1 ->
  check_item EVENT_SCHEMA_entries k v = cv_datetime v.
Proof.
  intros Hk Hn. unfold check_item, EVENT_SCHEMA_entries.
  rewrite (find_entry_display_unpack _ _ _ Hn).
  destruct Hk as [-> | ->]; reflexivity.
Qed.

Lemma cv_datetime_valid (v v' : pyval) :
  cv_datetime v = Valid v' -> exists d, v' = VDatetime d.
Proof.
  unfold cv_datetime. destruct v; try discriminate.
  - destruct (parse_datetime s); [|discriminate].
    intros [= <-]. eauto.
  - intros [= <-]. eauto.
Qed.

(** A payload that passes the schema comes out with its start and its end
    as datetimes, each the value the payload had under that key as
    [cv.datetime] returns it. *)
Lemma EVENT_SCHEMA_returns (event valid_event : gmap string pyval)
    (k : string) :
  k = EVENT_START \/ k = EVENT_END ->
  k ∉ ENTITY_SERVICE_FIELDS.*1 ->
  EVENT_SCHEMA event = Return valid_event ->
  exists v d,
    event !! k = Some v /\ cv_datetime v = Valid (VDatetime d)
    /\ valid_event !! k = Some (VDatetime d).
Proof.
  intros Hk Hn. unfold EVENT_SCHEMA, Schema_All.
  destruct (mapping_schema EVENT_SCHEMA_entries event) as [mid|e] eqn:Hm.
  2:{ destruct e; discriminate. }
  destruct (_has_roborock_interval EVENT_START EVENT_END mid)
    as [out|e] eqn:Hv.
  2:{ destruct e; discriminate. }
  intros [= <-]. apply has_roborock_interval_returns in Hv as ->.
  apply mapping_schema_returns in Hm as (Hi & Hmiss & ->).
  assert (requires EVENT_SCHEMA_entries k) as Hr.
  { apply EVENT_SCHEMA_requires. tauto. }
  destruct (missing_errors_nil_present _ _ _ Hmiss Hr) as [v Hd].
  destruct (item_errors_nil_valid _ _ _ _ Hi Hd) as [v' Hc].
  pose proof Hc as Hc'. rewrite (check_item_datetime _ _ Hk Hn) in Hc'.
  destruct (cv_datetime_valid _ _ Hc') as [d ->].
  exists v, d. split; [exact Hd|]. split; [exact Hc'|].
  apply (checked_items_lookup _ _ _ _ _ Hd Hc).
Qed.

End EventSchema.

(** ** Updating the timer *)

(** The first statement of [async_update_event] decides alone when it
    raises: nothing runs after it. *)
Lemma async_update_event_schema_raise `{Host} (self : RoborockCalendar)
    (uid : string) (event : gmap string pyval)
    (recurrence_id recurrence_range : option string) (e : exn) (w : world) :
  EVENT_SCHEMA event = Raise e ->
  async_update_event self uid event recurrence_id recurrence_range w
    = (Raise e, w).
Proof.
  intros He. unfold async_update_event, mbind, M_bind, pure.
  rewrite He. reflexivity.
Qed.

(** C3: when the schema raises on the payload, be it a schema error or the
    interval validator's, [async_update_event] raises that same exception
    and leaves the world as it found it: no command was issued and the
    device did not move. *)
Theorem update_event_invalid_no_command `{Host} (self : RoborockCalendar)
    (uid : string) (event : gmap string pyval)
    (recurrence_id recurrence_range : option string) (e : exn) (w : world) :
  EVENT_SCHEMA event = Raise e ->
  async_update_event self uid event recurrence_id recurrence_range w
    = (Raise e, w)
  /\ calls (async_update_event self uid event recurrence_id
              recurrence_range w).2 = calls w.
Proof.
  intros He.
  rewrite (async_update_event_schema_raise _ _ _ _ _ _ _ He).
  split; reflexivity.
Qed.

Lemma update_event_invalid_no_command_witness :
  @async_update_event sample_host sample_calendar "dnd_timer"
    payload_22_15_30 None None sample_world
    = (Raise (MultipleInvalid
                [ {| msg := Unexpected_datetime AtStart at_22_15_30 at_22_15;
                     path := [] |} ]),
       sample_world)
  /\ calls (@async_update_event sample_host sample_calendar "dnd_timer"
              payload_22_15_30 None None sample_world).2
     = calls sample_world.
Proof.
  apply (@update_event_invalid_no_command sample_host sample_calendar
           "dnd_timer" payload_22_15_30 None None).
  vm_compute. reflexivity.
Defined.

(** C5: when the payload passes the schema, [async_update_event] issues
    exactly one command, the update command of the timer kind, with the
    parameters [[start.hour, start.minute, end.hour, end.minute]] of the
    validated start and end; the result is the transport's.  The host's
    table of service fields is taken not to redefine the two keys. *)
Theorem update_event_sends_interval `{Host} (self : RoborockCalendar)
    (uid : string) (event valid_event : gmap string pyval)
    (recurrence_id recurrence_range : option string) (w : world) :
  EVENT_START ∉ ENTITY_SERVICE_FIELDS.*1 ->
  EVENT_END ∉ ENTITY_SERVICE_FIELDS.*1 ->
  EVENT_SCHEMA event = Return valid_event ->
  exists vs ve s e,
    event !! EVENT_START = Some vs /\ cv_datetime vs = Valid (VDatetime s)
    /\ event !! EVENT_END = Some ve /\ cv_datetime ve = Valid (VDatetime e)
    /\ let c := {| via := api (coordinator self);
                   command := update_command (entity_description self);
                   params := Some [hour s; minute s; hour e; minute e];
                   return_type := base_class (entity_description self) |} in
       let r := (transport (device w) c).1 in
       async_update_event self uid event recurrence_id recurrence_range w
       = (match r with Replied _ => Return tt | Failed x => Raise x end,
          {| device := (transport (device w) c).2;
             calls := calls w ++ [(c, r)];
             added := added w |}).
Proof.
  intros Hs He Hv.
  destruct (EVENT_SCHEMA_returns event valid_event EVENT_START
              (or_introl eq_refl) Hs Hv) as (vs & s & Hvs & Hcs & Hos).
  destruct (EVENT_SCHEMA_returns event valid_event EVENT_END
              (or_intror eq_refl) He Hv) as (ve & e & Hve & Hce & Hoe).
  exists vs, ve, s, e. repeat (split; [assumption|]).
  unfold async_update_event, mbind, M_bind, pure, getitem.
  rewrite Hv, Hos, Hoe. simpl.
  unfold send, send_command.
  destruct (transport _ _) as [r d]. simpl.
  destruct r; reflexivity.
Qed.

Lemma update_event_sends_interval_witness :
  exists vs ve s e,
    payload_22_15 !! EVENT_START = Some vs
    /\ @cv_datetime sample_host vs = Valid (VDatetime s)
    /\ payload_22_15 !! EVENT_END = Some ve
    /\ @cv_datetime sample_host ve = Valid (VDatetime e)
    /\ let c := {| via := "vacuum";
                   command := SET_DND_TIMER;
                   params := Some [hour s; minute s; hour e; minute e];
                   return_type := DnDTimer |} in
       let r := (sample_transport 0%nat c).1 in
       @async_update_event sample_host sample_calendar "dnd_timer"
         payload_22_15 None None sample_world
       = (match r with Replied _ => Return tt | Failed x => Raise x end,
          @mk_world sample_host (sample_transport 0%nat c).2
            ([] ++ [(c, r)]) []).
Proof.
  apply (@update_event_sends_interval sample_host sample_calendar "dnd_timer"
           payload_22_15
           (<["dtstart" := VDatetime at_22_15]>
              (<["dtend" := VDatetime at_06_05]>
                 (<["summary" := VStr "Quiet"]> ∅))) None None sample_world).
  - apply (bool_decide_unpack _). vm_compute. exact I.
  - apply (bool_decide_unpack _). vm_compute. exact I.
  - vm_compute. reflexivity.
Defined.

(** The scenario of the spec: 22:15 to 06:05 goes out as [22; 15; 6; 5]. *)
Example update_event_22_15_to_06_05 :
  @async_update_event sample_host sample_calendar "dnd_timer"
    payload_22_15 None None sample_world
  = (Return tt,
     @mk_world sample_host 1%nat
       [ ({| via := "vacuum"; command := SET_DND_TIMER;
             params := Some [22; 15; 6; 5]; return_type := DnDTimer |},
          Replied None) ] []).
Proof. vm_compute. reflexivity. Qed.

(** C9: whatever the two times, [async_update_event_service] raises a
    schema error and leaves the world untouched.  The payload it builds has
    the keys [dtstart] and [dtend] only, so the required summary is reported
    as not provided; and, unless the host's table redefines the two keys,
    each time is reported as an invalid datetime. *)
Theorem update_event_service_always_raises `{Host} (self : RoborockCalendar)
    (dtstart dtend : time) (w : world) :
  exists errors,
    async_update_event_service self dtstart dtend w
      = (Raise (MultipleInvalid errors), w)
    /\ {| msg := Required_key_not_provided; path := [EVENT_SUMMARY] |}
         ∈ errors
    /\ (EVENT_START ∉ ENTITY_SERVICE_FIELDS.*1 ->
        {| msg := Invalid_datetime_specified (VTime dtstart);
           path := [EVENT_START] |} ∈ errors)
    /\ (EVENT_END ∉ ENTITY_SERVICE_FIELDS.*1 ->
        {| msg := Invalid_datetime_specified (VTime dtend);
           path := [EVENT_END] |} ∈ errors).
Proof.
  unfold async_update_event_service.
  set (payload := <["dtstart" := VTime dtstart]>
                    (<["dtend" := VTime dtend]> ∅)).
  assert ({| msg := Required_key_not_provided; path := [EVENT_SUMMARY] |}
            ∈ missing_errors EVENT_SCHEMA_entries payload) as Hsum.
  { apply missing_errors_required.
    - apply EVENT_SCHEMA_requires. tauto.
    - reflexivity. }
  exists (item_errors EVENT_SCHEMA_entries payload
          ++ missing_errors EVENT_SCHEMA_entries payload).
  split; [|split; [|split]].
  - apply async_update_event_schema_raise.
    unfold EVENT_SCHEMA, Schema_All.
    rewrite (mapping_schema_raises _ _ _
               (proj2 (elem_of_app _ _ _) (or_intror Hsum))).
    reflexivity.
  - apply elem_of_app. right. exact Hsum.
  - intros Hn. apply elem_of_app. left.
    apply (item_errors_rejected _ _ EVENT_START (VTime dtstart)).
    + reflexivity.
    + rewrite check_item_datetime by tauto. reflexivity.
  - intros Hn. apply elem_of_app. left.
    apply (item_errors_rejected _ _ EVENT_END (VTime dtend)).
    + reflexivity.
    + rewrite check_item_datetime by tauto. reflexivity.
Qed.

Lemma update_event_service_always_raises_witness :
  exists errors,
    @async_update_event_service sample_host sample_calendar
      (mk_time 22 15 0 0) (mk_time 6 5 0 0) sample_world
      = (Raise (MultipleInvalid errors), sample_world)
    /\ {| msg := Required_key_not_provided; path := [EVENT_SUMMARY] |}
         ∈ errors
    /\ {| msg := Invalid_datetime_specified (VTime (mk_time 22 15 0 0));
          path := [EVENT_START] |} ∈ errors
    /\ {| msg := Invalid_datetime_specified (VTime (mk_time 6 5 0 0));
          path := [EVENT_END] |} ∈ errors.
Proof.
  destruct (@update_event_service_always_raises sample_host sample_calendar
              (mk_time 22 15 0 0) (mk_time 6 5 0 0) sample_world)
    as (errors & Hrun & Hsummary & Hstart & Hend).
  exists errors. split; [exact Hrun|]. split; [exact Hsummary|]. split.
  - apply Hstart. apply (bool_decide_unpack _). vm_compute. exact I.
  - apply Hend. apply (bool_decide_unpack _). vm_compute. exact I.
Defined.

(** ** Reading the timer *)






(** ** Setup *)

(** Run the rest of the loop with the induction hypothesis [IH], whatever
    the entities and the world it is resumed with. *)
Ltac resume_probe_sensors IH log d' Hl :=
  match goal with
  | |- context [probe_sensors _ _ _ _ ?es ?w'] =>
      destruct (IH es w') as (log & d' & Hl & ->)
  end.

Lemma probe_sensors_log `{Host} (c : Coordinator)
    (info : RoborockHassDeviceInfo)
    (sensors : list (string * RoborockCalendarDescription)) :
  fails_softly -> data c = Some info ->
  forall (entities : list RoborockCalendar) (w : world),
  exists log d',
    log.*1 = map (fun sd => probe c sd.2) sensors
    /\ probe_sensors c info (slugify (duid info)) sensors entities w
       = (Return (entities
                  ++ omap entity_of_reply (zip (map (pair c) sensors) log.*2)),
          {| device := d'; calls := calls w ++ log; added := added w |}).
Proof.
  intros Hsoft Hdata.
  induction sensors as [|[sensor description] sensors IH]; intros entities w.
  - exists [], (device w). split; [reflexivity|]. simpl.
    rewrite !app_nil_r. destruct w; reflexivity.
  - simpl. unfold mbind, M_bind, suppress_RoborockException, send_command.
    fold (probe c description).
    destruct (transport (device w) (probe c description)) as [r d] eqn:Ht.
    destruct r as [[value|]|e].
    + resume_probe_sensors IH log d' Hl.
      exists ((probe c description, Replied (Some value)) :: log), d'.
      split; [simpl; f_equal; exact Hl|].
      simpl. unfold entity_of_reply at 2. simpl. rewrite Hdata.
      rewrite <- !app_assoc. reflexivity.
    + resume_probe_sensors IH log d' Hl.
      exists ((probe c description, Replied None) :: log), d'.
      split; [simpl; f_equal; exact Hl|].
      simpl. unfold entity_of_reply at 2. simpl. rewrite Hdata.
      rewrite <- !app_assoc. reflexivity.
    + rewrite (Hsoft _ _ _ _ Ht).
      resume_probe_sensors IH log d' Hl.
      exists ((probe c description, Failed RoborockException) :: log), d'.
      split; [simpl; f_equal; exact Hl|].
      simpl. unfold entity_of_reply at 2. simpl. rewrite Hdata.
      rewrite <- !app_assoc. reflexivity.
Qed.





(** The sample device: the valley-electricity fetch raises, the
    do-not-disturb fetch is still made, and its entity alone is added. *)
Example setup_sample_device :
  @async_setup_entry sample_host [sample_coordinator] sample_world
  = (Return tt,
     @mk_world sample_host 2%nat
       [ ({| via := "vacuum"; command := GET_VALLEY_ELECTRICITY_TIMER;
             params := None; return_type := ValleyElectricityTimer |},
          Failed RoborockException);
         ({| via := "vacuum"; command := GET_DND_TIMER;
             params := None; return_type := DnDTimer |},
          Replied (Some sample_timer)) ]
       [ [ set_event_value sample_calendar (Some sample_timer) ] ]).
Proof. vm_compute. reflexivity. Qed.

(** ** Nested dictionaries *)

Lemma split_dot_cons (s : string) : exists k ks, split_dot s = k :: ks.
Proof.
  induction s as [|c s (k & ks & IH)]; simpl.
  - eauto.
  - destruct (Ascii.eqb c "."); [eauto|]. rewrite IH. eauto.
Qed.

Lemma init_last_app (ks : list string) :
  forall k i l, init_last k ks = (i, l) -> k :: ks = i ++ [l].
Proof.
  induction ks as [|k' ks IH]; intros k i l; simpl.
  - intros [= <- <-]. reflexivity.
  - destruct (init_last k' ks) as [i' l'] eqn:E. intros [= <- <-].
    simpl. f_equal. apply IH. exact E.
Qed.

Lemma free_or_nested_empty (keys : list string) :
  free_or_nested (VDict ∅) keys = true.
Proof. destruct keys; reflexivity. Qed.

(** A value other than [None] is returned by the last step of the walk. *)
Lemma get_walk_last (d : gmap string pyval) (k : string) (v default : pyval) :
  v <> VNone -> d !! k = Some v -> get_walk (VDict d) [k] default = Return v.
Proof.
  intros Hv Hk. simpl. rewrite Hk. destruct v; congruence.
Qed.

(** Along a path that finds nothing or nested dictionaries, the assignment
    succeeds and the walk back finds the value. *)
Lemma set_walk_get_walk (last : string) (v : pyval) (init : list string) :
  v <> VNone ->
  forall d, free_or_nested (VDict d) (init ++ [last]) = true ->
  exists d',
    set_walk (VDict d) init last v = (VDict d', Return tt)
    /\ forall default, get_walk (VDict d') (init ++ [last]) default = Return v.
Proof.
  intros Hv. induction init as [|key init IH]; intros d Hfree.
  - exists (<[last := v]> d). split; [reflexivity|]. intros default.
    apply get_walk_last; [exact Hv|]. apply lookup_insert_eq.
  - simpl in Hfree. simpl.
    destruct (d !! key) as [child|] eqn:Hk; simpl.
    + destruct child as [| | | | | | |d0]; try discriminate.
      destruct (IH d0 Hfree) as (d' & -> & Hget).
      exists (<[key := VDict d']> d). split; [reflexivity|].
      intros default. rewrite lookup_insert_eq. apply Hget.
    + destruct (IH ∅ (free_or_nested_empty _)) as (d' & -> & Hget).
      exists (<[key := VDict d']> d). split; [reflexivity|].
      intros default. rewrite lookup_insert_eq. apply Hget.
Qed.

Lemma get_walk_default (keys : list string) (default : pyval) :
  forall here, absent_or_none here keys = true ->
  get_walk here keys default = Return default.
Proof.
  induction keys as [|key keys IH]; intros here; simpl; [discriminate|].
  destruct here as [| | | | | | |d]; try discriminate.
  destruct (d !! key) as [v|]; [|reflexivity].
  destruct v; try reflexivity; apply IH.
Qed.

(** C10: for a dictionary [d], a dotted path [p] and a value [v] other than
    [None]: if every key along [p] finds in [d] nothing or a nested
    dictionary, [set_nested_dict] succeeds and [get_nested_dict] then returns
    [v] for [p], whatever the default; and [get_nested_dict] returns the
    default when the walk along [p] comes to a key that is absent or maps to
    [None]. *)
Theorem set_then_get_nested_dict (d : gmap string pyval) (p : string)
    (v default : pyval) :
  (v <> VNone -> free_or_nested (VDict d) (split_dot p) = true ->
   exists d',
     set_nested_dict d p v = (VDict d', Return tt)
     /\ get_nested_dict d' p VNone = Return v
     /\ get_nested_dict d' p default = Return v)
  /\ (absent_or_none (VDict d) (split_dot p) = true ->
      get_nested_dict d p default = Return default).
Proof.
  split.
  - intros Hv Hfree. unfold set_nested_dict, get_nested_dict.
    destruct (split_dot_cons p) as (k & ks & E). rewrite E in *.
    destruct (init_last k ks) as [init last] eqn:Hil.
    apply init_last_app in Hil. rewrite Hil in *.
    destruct (set_walk_get_walk last v init Hv d Hfree) as (d' & Hset & Hget).
    exists d'. auto.
  - apply get_walk_default.
Qed.

Lemma set_then_get_nested_dict_witness :
  (exists d',
     set_nested_dict sample_dict "a.b.c" (VInt 3) = (VDict d', Return tt)
     /\ get_nested_dict d' "a.b.c" VNone = Return (VInt 3)
     /\ get_nested_dict d' "a.b.c" (VInt 7) = Return (VInt 3))
  /\ get_nested_dict sample_dict "a.b.c" (VInt 7) = Return (VInt 7).
Proof.
  destruct (set_then_get_nested_dict sample_dict "a.b.c" (VInt 3) (VInt 7))
    as [Hset Hget].
  split.
  - apply Hset; [discriminate|reflexivity].
  - apply Hget. reflexivity.
Defined.

(** * Further properties *)

(** ** Nested dictionaries: success, failure and frame *)

Lemma set_nested_dict_walk (d : gmap string pyval) (p : string) (v : pyval) :
  set_nested_dict d p v
  = set_walk (VDict d) (path_split p).1 (path_split p).2 v.
Proof.
  unfold set_nested_dict, path_split.
  destruct (split_dot p) as [|k ks]; [reflexivity|].
  destruct (init_last k ks). reflexivity.
Qed.

Lemma path_split_app (p : string) :
  split_dot p = (path_split p).1 ++ [(path_split p).2].
Proof.
  unfold path_split. destruct (split_dot_cons p) as (k & ks & ->).
  destruct (init_last k ks) as [i l] eqn:E.
  apply init_last_app in E. exact E.
Qed.

(** Started at an object that is no dictionary, the walk raises at once and
    gives the object back. *)
Lemma set_walk_not_dict (here : pyval) (init : list string) (last : string)
    (v : pyval) :
  is_dict here = false ->
  set_walk here init last v
  = (here, Raise (match init with [] => TypeError | _ => AttributeError end)).
Proof. intros Hd. destruct init, here; try discriminate; reflexivity. Qed.

(** Started at a dictionary, the walk succeeds exactly when the keys before
    the last find nothing or nested dictionaries; it then gives back a
    dictionary in which these keys find nested dictionaries, and otherwise
    the dictionary it started with. *)
Lemma set_walk_cases (last : string) (v : pyval) (init : list string) :
  forall d,
    (free_or_nested (VDict d) init = true
     /\ exists d', set_walk (VDict d) init last v = (VDict d', Return tt)
                   /\ free_or_nested (VDict d') init = true)
    \/ (free_or_nested (VDict d) init = false
        /\ exists e, set_walk (VDict d) init last v = (VDict d, Raise e)
                     /\ (e = AttributeError \/ e = TypeError)).
Proof.
  induction init as [|key init IH]; intros d.
  - left. split; [reflexivity|]. eexists. split; reflexivity.
  - simpl. destruct (d !! key) as [child|] eqn:Hk; simpl.
    + destruct (is_dict child) eqn:Hc.
      * destruct child; try discriminate.
        destruct (IH d0) as [(Hf & d' & -> & Hf')|(Hf & e & -> & He)].
        -- left. split; [exact Hf|]. eexists. split; [reflexivity|].
           simpl. rewrite lookup_insert_eq. exact Hf'.
        -- right. split; [exact Hf|]. exists e.
           rewrite (insert_id _ _ _ Hk). auto.
      * right. rewrite (set_walk_not_dict _ _ _ _ Hc).
        rewrite (insert_id _ _ _ Hk).
        split; [destruct child; try reflexivity; discriminate|].
        eexists. split; [reflexivity|]. destruct init; auto.
    + destruct (IH ∅) as [(_ & d' & -> & Hf')|(Hf & _)].
      * left. split; [reflexivity|]. eexists. split; [reflexivity|].
        simpl. rewrite lookup_insert_eq. exact Hf'.
      * rewrite free_or_nested_empty in Hf. discriminate.
Qed.

(** X1: [set_nested_dict] succeeds exactly when every key of the path
    before the last finds, walked from the dictionary, nothing or a nested
    dictionary; what the last key holds does not matter. *)
Theorem set_nested_dict_succeeds_iff (d : gmap string pyval) (p : string)
    (v : pyval) :
  (set_nested_dict d p v).2 = Return tt
  <-> free_or_nested (VDict d) (path_split p).1 = true.
Proof.
  rewrite set_nested_dict_walk.
  destruct (set_walk_cases (path_split p).2 v (path_split p).1 d)
    as [(Hf & d' & -> & _)|(Hf & e & -> & _)]; rewrite Hf; simpl.
  - split; reflexivity.
  - split; discriminate.
Qed.

(** X2: when [set_nested_dict] raises, the exception is [AttributeError] or
    [TypeError] and the dictionary is as it was: a walk that fails has
    created nothing on its way. *)
Theorem set_nested_dict_failure_leaves_dict (d : gmap string pyval)
    (p : string) (v after : pyval) (e : exn) :
  set_nested_dict d p v = (after, Raise e) ->
  after = VDict d /\ (e = AttributeError \/ e = TypeError).
Proof.
  rewrite set_nested_dict_walk.
  destruct (set_walk_cases (path_split p).2 v (path_split p).1 d)
    as [(_ & d' & -> & _)|(_ & e' & -> & He)].
  - discriminate.
  - intros [= <- <-]. auto.
Qed.

Lemma set_nested_dict_failure_leaves_dict_witness :
  VDict scalar_dict = VDict scalar_dict
  /\ (TypeError = AttributeError \/ TypeError = TypeError).
Proof.
  apply (set_nested_dict_failure_leaves_dict scalar_dict "a.b" (VInt 3)
           (VDict scalar_dict) TypeError).
  vm_compute. reflexivity.
Defined.

Lemma get_walk_after_set_walk (last : string) (v : pyval)
    (init : list string) :
  forall d d',
    set_walk (VDict d) init last v = (VDict d', Return tt) ->
    forall default,
      get_walk (VDict d') (init ++ [last]) default
      = Return (found_after_set v default).
Proof.
  induction init as [|key init IH]; intros d d'.
  - simpl. intros [= <-] default. rewrite lookup_insert_eq.
    destruct v; reflexivity.
  - simpl. intros Hset default.
    destruct (is_dict (from_option id (VDict ∅) (d !! key))) eqn:Hc.
    + destruct (from_option id (VDict ∅) (d !! key)) as [| | | | | | |c];
        try discriminate.
      destruct (set_walk_cases last v init c)
        as [(_ & c' & Hc' & _)|(_ & e & Hc' & _)];
        rewrite Hc' in Hset; [|discriminate].
      injection Hset as <-. rewrite lookup_insert_eq.
      apply (IH c c' Hc').
    + rewrite (set_walk_not_dict _ _ _ _ Hc) in Hset. discriminate.
Qed.

(** X3: when the keys of the path before the last find nothing or nested
    dictionaries, [set_nested_dict] succeeds, whatever the last key held,
    and [get_nested_dict] then returns for that path the value assigned, or
    its default when the value assigned is [None]. *)
Theorem set_then_get_overwrites (d : gmap string pyval) (p : string)
    (v : pyval) :
  free_or_nested (VDict d) (path_split p).1 = true ->
  exists d',
    set_nested_dict d p v = (VDict d', Return tt)
    /\ forall default,
         get_nested_dict d' p default = Return (found_after_set v default).
Proof.
  intros Hf. rewrite set_nested_dict_walk.
  destruct (set_walk_cases (path_split p).2 v (path_split p).1 d)
    as [(_ & d' & Hset & _)|(Hf' & _)]; [|congruence].
  exists d'. split; [exact Hset|]. intros default.
  unfold get_nested_dict. rewrite path_split_app.
  apply (get_walk_after_set_walk _ _ _ _ _ Hset).
Qed.

Lemma set_then_get_overwrites_witness :
  exists d',
    set_nested_dict scalar_dict "a" VNone = (VDict d', Return tt)
    /\ forall default,
         get_nested_dict d' "a" default
         = Return (found_after_set VNone default).
Proof.
  apply (set_then_get_overwrites scalar_dict "a" VNone). reflexivity.
Defined.

Lemma set_walk_absorbs (last : string) (v1 v2 : pyval) (init : list string) :
  forall d d1,
    set_walk (VDict d) init last v1 = (VDict d1, Return tt) ->
    set_walk (VDict d1) init last v2 = set_walk (VDict d) init last v2.
Proof.
  induction init as [|key init IH]; intros d d1.
  - simpl. intros [= <-]. rewrite insert_insert_eq. reflexivity.
  - simpl. intros Hset.
    destruct (is_dict (from_option id (VDict ∅) (d !! key))) eqn:Hc.
    + destruct (from_option id (VDict ∅) (d !! key)) as [| | | | | | |c];
        try discriminate.
      destruct (set_walk_cases last v1 init c)
        as [(_ & c' & Hc' & _)|(_ & e & Hc' & _)];
        rewrite Hc' in Hset; [|discriminate].
      injection Hset as <-. rewrite lookup_insert_eq. simpl.
      rewrite (IH c c' Hc').
      destruct (set_walk (VDict c) init last v2) as [c2 r].
      rewrite insert_insert_eq. reflexivity.
    + rewrite (set_walk_not_dict _ _ _ _ Hc) in Hset. discriminate.
Qed.

(** X4: an assignment at a path absorbs an earlier successful assignment at
    the same path: assigning [v1] and then [v2] leaves the dictionary that
    assigning [v2] alone leaves.  In particular the last write wins, and
    assigning the same value twice is assigning it once. *)
Theorem set_nested_dict_absorbs (d d1 : gmap string pyval) (p : string)
    (v1 v2 : pyval) :
  set_nested_dict d p v1 = (VDict d1, Return tt) ->
  set_nested_dict d1 p v2 = set_nested_dict d p v2.
Proof.
  rewrite !set_nested_dict_walk. apply set_walk_absorbs.
Qed.

Lemma set_nested_dict_absorbs_witness :
  set_nested_dict
    (<["a" := VDict (<["b" := VDict (<["c" := VInt 3]> ∅)]>
                       (<["x" := VInt 1]> ∅))]> ∅)
    "a.b.c" (VInt 4)
  = set_nested_dict sample_dict "a.b.c" (VInt 4).
Proof.
  apply (set_nested_dict_absorbs sample_dict _ "a.b.c" (VInt 3) (VInt 4)).
  vm_compute. reflexivity.
Defined.

(** The three ways a walk of [get_nested_dict] from a dictionary ends. *)
Lemma get_walk_cases (default : pyval) (keys : list string) :
  forall d,
    (absent_or_none (VDict d) keys = true
     /\ scalar_on_path (VDict d) keys = false
     /\ get_walk (VDict d) keys default = Return default)
    \/ (absent_or_none (VDict d) keys = false
        /\ scalar_on_path (VDict d) keys = true
        /\ get_walk (VDict d) keys default = Raise AttributeError)
    \/ (absent_or_none (VDict d) keys = false
        /\ scalar_on_path (VDict d) keys = false
        /\ exists v, v <> VNone
                     /\ get_walk (VDict d) keys default = Return v).
Proof.
  induction keys as [|key keys IH]; intros d.
  - right. right. simpl. repeat split. exists (VDict d). split; [|reflexivity].
    discriminate.
  - simpl. destruct (d !! key) as [child|]; [|left; auto].
    destruct child as [| | | | | | |c];
      [ left; auto
      | destruct keys as [|key' keys];
        [ right; right; split; [|split]; [reflexivity..|];
          eexists; (split; [|reflexivity]); discriminate
        | right; left; auto ] ..
      | apply IH ].
Qed.

(** X5: [get_nested_dict] raises exactly when the walk comes, before the
    last key of the path, to a key that maps to an object that is neither
    [None] nor a dictionary; the exception is then [AttributeError], and the
    default is not returned in its place. *)
Theorem get_nested_dict_raises_iff (d : gmap string pyval) (p : string)
    (default : pyval) :
  ((exists e, get_nested_dict d p default = Raise e)
   <-> scalar_on_path (VDict d) (split_dot p) = true)
  /\ (forall e, get_nested_dict d p default = Raise e -> e = AttributeError).
Proof.
  unfold get_nested_dict.
  destruct (get_walk_cases default (split_dot p) d)
    as [(_ & Hs & ->)|[(_ & Hs & ->)|(_ & Hs & v & _ & ->)]]; rewrite Hs.
  - split; [split; [intros [e [=]]|discriminate]|intros e [=]].
  - split; [split; [reflexivity|eauto]|intros e [= <-]; reflexivity].
  - split; [split; [intros [e [=]]|discriminate]|intros e [=]].
Qed.

Lemma get_nested_dict_raises_iff_witness :
  get_nested_dict scalar_dict "a.b" (VInt 7) = Raise AttributeError.
Proof.
  destruct (get_nested_dict_raises_iff scalar_dict "a.b" (VInt 7))
    as [[_ Hraise] Hkind].
  destruct Hraise as [e He]; [reflexivity|].
  rewrite He. f_equal. apply (Hkind e He).
Defined.

(** X6: [get_nested_dict] returns [None] only as the default: with a
    default other than [None] it never returns [None], since a value found
    at the end of the path is never [None]. *)
Theorem get_nested_dict_none_is_default (d : gmap string pyval) (p : string)
    (default : pyval) :
  default <> VNone -> get_nested_dict d p default <> Return VNone.
Proof.
  intros Hd. unfold get_nested_dict.
  destruct (get_walk_cases default (split_dot p) d)
    as [(_ & _ & ->)|[(_ & _ & ->)|(_ & _ & v & Hv & ->)]].
  - intros [= ->]. congruence.
  - discriminate.
  - intros [= ->]. congruence.
Qed.

Lemma get_nested_dict_none_is_default_witness :
  get_nested_dict (<["a" := VNone]> ∅) "a" (VInt 7) <> Return VNone.
Proof.
  apply (get_nested_dict_none_is_default (<["a" := VNone]> ∅) "a" (VInt 7)).
  discriminate.
Defined.

Lemma split_dot_dotless (s : string) : dotless s = true -> split_dot s = [s].
Proof.
  induction s as [|c s IH]; simpl; [reflexivity|].
  destruct (Ascii.eqb c "."); simpl; [discriminate|].
  intros Hs. rewrite (IH Hs). reflexivity.
Qed.

(** X8: for a key without a dot the two functions are the plain dictionary
    operations: [set_nested_dict] is the assignment [data[key] = value], and
    [get_nested_dict] is [data.get(key)] with the default in place of
    [None]. *)
Theorem dotless_key_is_plain (d : gmap string pyval) (k : string)
    (v default : pyval) :
  dotless k = true ->
  set_nested_dict d k v = (VDict (<[k := v]> d), Return tt)
  /\ get_nested_dict d k default
     = Return (found_after_set (dict_get d k) default).
Proof.
  intros Hk. unfold set_nested_dict, get_nested_dict, dict_get.
  rewrite (split_dot_dotless _ Hk). simpl. split; [reflexivity|].
  destruct (d !! k) as [x|]; [|reflexivity]. destruct x; reflexivity.
Qed.

Lemma dotless_key_is_plain_witness :
  set_nested_dict scalar_dict "a" (VInt 6)
  = (VDict (<["a" := VInt 6]> scalar_dict), Return tt)
  /\ get_nested_dict scalar_dict "a" VNone
     = Return (found_after_set (dict_get scalar_dict "a") VNone).
Proof.
  apply (dotless_key_is_plain scalar_dict "a" (VInt 6) VNone). reflexivity.
Defined.

(** ** The interval validator, whatever the canonicalization *)

(** X9: on a payload whose start and end are datetimes the validator
    returns the payload exactly when the canonicalization gives back a start
    equal to the start and an end equal to the end; any exception it raises
    there is a [vol.Invalid] about one of the two, raised under no key. *)
Theorem validate_accepts_iff `{Host} (start_key end_key : string)
    (obj : gmap string pyval) (s e : datetime) :
  obj !! start_key = Some (VDatetime s) ->
  obj !! end_key = Some (VDatetime e) ->
  (_has_roborock_interval start_key end_key obj = Return obj
   <-> datetime_eqb (parse_datetime_to_roborock_datetime s e).1 s = true
       /\ datetime_eqb (parse_datetime_to_roborock_datetime s e).2 e = true)
  /\ forall x, _has_roborock_interval start_key end_key obj = Raise x ->
       exists which rejected suggested,
         x = VolInvalid {| msg := Unexpected_datetime which rejected suggested;
                           path := [] |}.
Proof.
  intros Es Ee.
  destruct (parse_datetime_to_roborock_datetime s e) as [ps pe] eqn:Ep.
  rewrite (has_roborock_interval_datetimes _ _ _ _ _ _ _ Es Ee Ep). simpl.
  destruct (datetime_eqb ps s); simpl.
  - destruct (datetime_eqb pe e); simpl.
    + split; [split; auto|discriminate].
    + split; [split; [discriminate|intros [_ [=]]]|].
      intros x [= <-]. eauto.
  - split; [split; [discriminate|intros [[=] _]]|].
    intros x [= <-]. eauto.
Qed.

Lemma validate_accepts_iff_witness :
  (@_has_roborock_interval sample_host "dtstart" "dtend" payload_22_15_30
   = Return payload_22_15_30
   <-> datetime_eqb (canonical_interval at_22_15_30 at_06_05).1 at_22_15_30
       = true
       /\ datetime_eqb (canonical_interval at_22_15_30 at_06_05).2 at_06_05
          = true)
  /\ forall x,
       @_has_roborock_interval sample_host "dtstart" "dtend" payload_22_15_30
       = Raise x ->
       exists which rejected suggested,
         x = VolInvalid {| msg := Unexpected_datetime which rejected suggested;
                           path := [] |}.
Proof.
  apply (@validate_accepts_iff sample_host "dtstart" "dtend"
           payload_22_15_30 at_22_15_30 at_06_05); reflexivity.
Defined.

(** X10: an endpoint that is present but falsy, [None] or an empty string
    say, counts as absent: the validator checks nothing and returns the
    payload. *)
Theorem validate_skips_falsy_endpoint `{Host} (start_key end_key : string)
    (obj : gmap string pyval) :
  truthy (dict_get obj start_key) = false
  \/ truthy (dict_get obj end_key) = false ->
  _has_roborock_interval start_key end_key obj = Return obj.
Proof.
  intros [E|E]; unfold _has_roborock_interval; rewrite E.
  - reflexivity.
  - rewrite andb_false_r. reflexivity.
Qed.

Lemma validate_skips_falsy_endpoint_witness :
  @_has_roborock_interval sample_host "dtstart" "dtend"
    (<["dtstart" := VDatetime at_22_15_30]> (<["dtend" := VStr ""]> ∅))
  = Return (<["dtstart" := VDatetime at_22_15_30]>
              (<["dtend" := VStr ""]> ∅)).
Proof.
  apply (@validate_skips_falsy_endpoint sample_host "dtstart" "dtend"
           (<["dtstart" := VDatetime at_22_15_30]>
              (<["dtend" := VStr ""]> ∅))).
  right. reflexivity.
Defined.

(** ** The event schema *)

Lemma omap_nil_all {A B : Type} (f : A -> option B) (l : list A) :
  (forall x, x ∈ l -> f x = None) -> omap f l = [].
Proof.
  intros Hall. destruct (omap f l) as [|y ys] eqn:E; [reflexivity|].
  assert (y ∈ omap f l) as Hy by (rewrite E; left).
  apply list_elem_of_omap in Hy as (x & Hx & Hfx).
  rewrite (Hall x Hx) in Hfx. discriminate.
Qed.

Lemma item_errors_nil (entries : list schema_entry)
    (data : gmap string pyval) :
  (forall k v, data !! k = Some v ->
     exists v', check_item entries k v = Valid v') ->
  item_errors entries data = [].
Proof.
  intros Hall. apply omap_nil_all. intros [k v] Hin.
  apply elem_of_map_to_list in Hin. simpl.
  destruct (Hall k v Hin) as [v' ->]. reflexivity.
Qed.

Lemma missing_errors_nil (entries : list schema_entry)
    (data : gmap string pyval) :
  (forall k, requires entries k -> is_Some (data !! k)) ->
  missing_errors entries data = [].
Proof.
  intros Hall. apply omap_nil_all. intros e Hin.
  destruct (entry_marker e) eqn:Hm; [|reflexivity].
  destruct (Hall (entry_key e)) as [v ->]; [|reflexivity].
  exists e. auto.
Qed.

Lemma requires_display_update_inv (entries : list schema_entry)
    (k k' : string) (v : validator) :
  requires (display_update entries k' v) k -> requires entries k.
Proof.
  induction entries as [|e0 rest IH]; simpl.
  - intros (e & Hin & Hm & _). apply list_elem_of_singleton in Hin as ->.
    discriminate.
  - destruct (String.eqb_spec (entry_key e0) k') as [E|E];
      intros (e & Hin & Hm & Hk); apply elem_of_cons in Hin as [->|Hin].
    + exists e0. split; [left|]. simpl in *. auto.
    + exists e. split; [right; exact Hin|auto].
    + exists e0. split; [left|auto].
    + destruct IH as (e' & Hin' & Hm' & Hk'); [exists e; auto|].
      exists e'. split; [right; exact Hin'|auto].
Qed.

Lemma requires_display_unpack_inv (more : list (string * validator))
    (entries : list schema_entry) (k : string) :
  requires (display_unpack entries more) k -> requires entries k.
Proof.
  unfold display_unpack. revert entries.
  induction more as [|[k' v] more IH]; intros entries; simpl.
  - auto.
  - intros Hr. apply IH in Hr. apply requires_display_update_inv in Hr.
    exact Hr.
Qed.

(** The keys that [EVENT_SCHEMA] requires are the start, the end and the
    summary, whatever the host's table adds. *)
Lemma EVENT_SCHEMA_requires_inv `{Host} (k : string) :
  requires EVENT_SCHEMA_entries k ->
  k = EVENT_START \/ k = EVENT_END \/ k = EVENT_SUMMARY.
Proof.
  intros Hr. apply requires_display_unpack_inv in Hr.
  destruct Hr as (e & Hin & Hm & <-).
  repeat (apply elem_of_cons in Hin as [->|Hin]; [simpl in *; auto|]);
    try discriminate.
  inversion Hin.
Qed.

(** A payload that passes the mapping schema comes out with the keys it
    had, each with the value its entry's schema returned. *)
Lemma checked_items_lookup_inv (entries : list schema_entry)
    (data : gmap string pyval) (k : string) (v' : pyval) :
  checked_items entries data !! k = Some v' ->
  exists v, data !! k = Some v /\ check_item entries k v = Valid v'.
Proof.
  unfold checked_items. rewrite map_lookup_imap.
  destruct (data !! k) as [v|]; simpl; [|discriminate].
  destruct (check_item entries k v) eqn:Hc; [|discriminate].
  intros [= <-]. eauto.
Qed.

(** X11: a payload that passes [EVENT_SCHEMA] comes out with exactly the
    keys it went in with, no key added and none dropped, and holds under
    each key the value that the schema of that key returned for the value
    that went in. *)
Theorem EVENT_SCHEMA_keeps_keys `{Host} (event valid_event : gmap string pyval) :
  EVENT_SCHEMA event = Return valid_event ->
  forall k,
    (is_Some (valid_event !! k) <-> is_Some (event !! k))
    /\ forall v', valid_event !! k = Some v' ->
         exists v, event !! k = Some v
                   /\ check_item EVENT_SCHEMA_entries k v = Valid v'.
Proof.
  unfold EVENT_SCHEMA, Schema_All.
  destruct (mapping_schema EVENT_SCHEMA_entries event) as [mid|x] eqn:Hm.
  2:{ destruct x; discriminate. }
  destruct (_has_roborock_interval EVENT_START EVENT_END mid)
    as [out|x] eqn:Hv.
  2:{ destruct x; discriminate. }
  intros [= <-] k. apply has_roborock_interval_returns in Hv as ->.
  apply mapping_schema_returns in Hm as (Hi & _ & ->).
  split; [split|].
  - intros [v' Hv']. apply checked_items_lookup_inv in Hv' as (v & -> & _).
    eauto.
  - intros [v Hv]. destruct (item_errors_nil_valid _ _ _ _ Hi Hv) as [v' Hc].
    exists v'. apply (checked_items_lookup _ _ _ _ _ Hv Hc).
  - apply checked_items_lookup_inv.
Qed.

Lemma EVENT_SCHEMA_keeps_keys_witness :
  (is_Some (payload_22_15 !! "dtstart")
   <-> is_Some (payload_22_15 !! "dtstart"))
  /\ forall v', payload_22_15 !! "dtstart" = Some v' ->
       exists v, payload_22_15 !! "dtstart" = Some v
                 /\ check_item (@EVENT_SCHEMA_entries sample_host)
                      "dtstart" v = Valid v'.
Proof.
  apply (@EVENT_SCHEMA_keeps_keys sample_host payload_22_15 payload_22_15).
  vm_compute. reflexivity.
Defined.

Lemma check_item_string `{Host} (k : string) (v : pyval) :
  k ∈ [EVENT_SUMMARY; EVENT_DESCRIPTION; EVENT_LOCATION; EVENT_RRULE] ->
  k ∉ ENTITY_SERVICE_FIELDS.*1 ->
  check_item EVENT_SCHEMA_entries k v = cv_string v.
Proof.
  intros Hk Hn. unfold check_item, EVENT_SCHEMA_entries.
  rewrite (find_entry_display_unpack _ _ _ Hn).
  repeat (apply elem_of_cons in Hk as [->|Hk]; [reflexivity|]).
  inversion Hk.
Qed.

Lemma find_entry_None (entries : list schema_entry) (k : string) :
  k ∉ entry_key <$> entries -> find_entry entries k = None.
Proof.
  unfold find_entry. induction entries as [|e rest IH]; simpl.
  - reflexivity.
  - intros Hk. apply not_elem_of_cons in Hk as [Hne Hk].
    destruct (String.eqb_spec (entry_key e) k); [congruence|apply IH, Hk].
Qed.

Lemma check_item_extra `{Host} (k : string) (v : pyval) :
  k ∉ EVENT_KEYS -> k ∉ ENTITY_SERVICE_FIELDS.*1 ->
  check_item EVENT_SCHEMA_entries k v = Rejected Extra_keys_not_allowed.
Proof.
  intros Hk Hn. unfold check_item, EVENT_SCHEMA_entries.
  rewrite (find_entry_display_unpack _ _ _ Hn).
  rewrite find_entry_None; [reflexivity|exact Hk].
Qed.

(** The exception of the schema is the exception of the coroutines that
    start with it; the world stays as it is. *)
Lemma update_and_create_raise `{Host} (self : RoborockCalendar)
    (uid : string) (event : gmap string pyval)
    (recurrence_id recurrence_range : option string) (x : exn) (w : world) :
  EVENT_SCHEMA event = Raise x ->
  async_update_event self uid event recurrence_id recurrence_range w
    = (Raise x, w)
  /\ async_create_event self event w = (Raise x, w).
Proof.
  intros Hx. split; [|unfold async_create_event];
    apply async_update_event_schema_raise; exact Hx.
Qed.

Lemma EVENT_SCHEMA_mapping_raise `{Host} (event : gmap string pyval)
    (x : Invalid) :
  x ∈ item_errors EVENT_SCHEMA_entries event
      ++ missing_errors EVENT_SCHEMA_entries event ->
  EVENT_SCHEMA event
  = Raise (MultipleInvalid (item_errors EVENT_SCHEMA_entries event
                            ++ missing_errors EVENT_SCHEMA_entries event)).
Proof.
  intros Hx. unfold EVENT_SCHEMA, Schema_All.
  rewrite (mapping_schema_raises _ _ _ Hx). reflexivity.
Qed.

(** X12: a payload without a start, without an end or without a summary
    never reaches the device: [async_update_event] and [async_create_event]
    raise the schema's [MultipleInvalid], which reports the key as required
    and not provided, and the world is as it was. *)
Theorem missing_required_key_no_command `{Host} (self : RoborockCalendar)
    (uid : string) (event : gmap string pyval)
    (recurrence_id recurrence_range : option string) (w : world)
    (k : string) :
  k = EVENT_START \/ k = EVENT_END \/ k = EVENT_SUMMARY ->
  event !! k = None ->
  exists errors,
    async_update_event self uid event recurrence_id recurrence_range w
      = (Raise (MultipleInvalid errors), w)
    /\ async_create_event self event w = (Raise (MultipleInvalid errors), w)
    /\ {| msg := Required_key_not_provided; path := [k] |} ∈ errors.
Proof.
  intros Hk Hnone.
  assert ({| msg := Required_key_not_provided; path := [k] |}
            ∈ item_errors EVENT_SCHEMA_entries event
                ++ missing_errors EVENT_SCHEMA_entries event) as Hin.
  { apply elem_of_app. right.
    apply missing_errors_required; [apply EVENT_SCHEMA_requires|]; assumption. }
  eexists. split; [|split; [|exact Hin]];
    apply (update_and_create_raise self uid event recurrence_id
             recurrence_range _ w (EVENT_SCHEMA_mapping_raise _ _ Hin)).
Qed.

Lemma missing_required_key_no_command_witness :
  exists errors,
    @async_update_event sample_host sample_calendar "dnd_timer"
      (<["dtstart" := VDatetime at_22_15]>
         (<["dtend" := VDatetime at_06_05]> ∅)) None None sample_world
      = (Raise (MultipleInvalid errors), sample_world)
    /\ @async_create_event sample_host sample_calendar
         (<["dtstart" := VDatetime at_22_15]>
            (<["dtend" := VDatetime at_06_05]> ∅)) sample_world
       = (Raise (MultipleInvalid errors), sample_world)
    /\ {| msg := Required_key_not_provided; path := ["summary"] |} ∈ errors.
Proof.
  apply (@missing_required_key_no_command sample_host sample_calendar
           "dnd_timer"
           (<["dtstart" := VDatetime at_22_15]>
              (<["dtend" := VDatetime at_06_05]> ∅)) None None sample_world
           "summary").
  - right. right. reflexivity.
  - reflexivity.
Defined.

(** X13: a payload with a key that is neither one of the six event keys nor
    a key of the host's table never reaches the device either: the schema
    reports "extra keys not allowed" under that key, and the world is as it
    was. *)
Theorem extra_key_no_command `{Host} (self : RoborockCalendar)
    (uid : string) (event : gmap string pyval)
    (recurrence_id recurrence_range : option string) (w : world)
    (k : string) (v : pyval) :
  k ∉ EVENT_KEYS -> k ∉ ENTITY_SERVICE_FIELDS.*1 ->
  event !! k = Some v ->
  exists errors,
    async_update_event self uid event recurrence_id recurrence_range w
      = (Raise (MultipleInvalid errors), w)
    /\ async_create_event self event w = (Raise (MultipleInvalid errors), w)
    /\ {| msg := Extra_keys_not_allowed; path := [k] |} ∈ errors.
Proof.
  intros Hk Hn Hv.
  assert ({| msg := Extra_keys_not_allowed; path := [k] |}
            ∈ item_errors EVENT_SCHEMA_entries event
                ++ missing_errors EVENT_SCHEMA_entries event) as Hin.
  { apply elem_of_app. left.
    apply (item_errors_rejected _ _ k v); [exact Hv|].
    apply check_item_extra; assumption. }
  eexists. split; [|split; [|exact Hin]];
    apply (update_and_create_raise self uid event recurrence_id
             recurrence_range _ w (EVENT_SCHEMA_mapping_raise _ _ Hin)).
Qed.

Lemma extra_key_no_command_witness :
  exists errors,
    @async_update_event sample_host sample_calendar "dnd_timer"
      (<["uid" := VStr "dnd_timer"]> payload_22_15) None None sample_world
      = (Raise (MultipleInvalid errors), sample_world)
    /\ @async_create_event sample_host sample_calendar
         (<["uid" := VStr "dnd_timer"]> payload_22_15) sample_world
       = (Raise (MultipleInvalid errors), sample_world)
    /\ {| msg := Extra_keys_not_allowed; path := ["uid"] |} ∈ errors.
Proof.
  apply (@extra_key_no_command sample_host sample_calendar "dnd_timer"
           (<["uid" := VStr "dnd_timer"]> payload_22_15) None None
           sample_world "uid" (VStr "dnd_timer")).
  - apply (bool_decide_unpack _). vm_compute. exact I.
  - apply (bool_decide_unpack _). vm_compute. exact I.
  - reflexivity.
Defined.

(** The mapping schema returns a payload as it is when every item passes
    unchanged and every required key is there. *)
Lemma mapping_schema_identity (entries : list schema_entry)
    (data : gmap string pyval) :
  (forall k v, data !! k = Some v -> check_item entries k v = Valid v) ->
  (forall k, requires entries k -> is_Some (data !! k)) ->
  mapping_schema entries data = Return data.
Proof.
  intros Hitems Hreq. unfold mapping_schema.
  rewrite item_errors_nil, missing_errors_nil; [|exact Hreq|eauto]. simpl.
  f_equal. apply map_eq. intros k. unfold checked_items.
  rewrite map_lookup_imap. destruct (data !! k) as [v|] eqn:Hk; simpl.
  - rewrite (Hitems k v Hk). reflexivity.
  - reflexivity.
Qed.

(** X14: a plain payload whose start and end are datetimes that the
    canonicalization gives back passes [EVENT_SCHEMA] unchanged, and
    [async_update_event] and [async_create_event] then issue one command,
    the update command of the timer kind with the hours and minutes of the
    start and of the end; they return when the transport replies and raise
    what it raises. *)
Theorem plain_payload_updates `{Host} (self : RoborockCalendar)
    (uid : string) (event : gmap string pyval)
    (recurrence_id recurrence_range : option string) (w : world)
    (s e : datetime) :
  service_fields_apart ->
  plain_payload event ->
  event !! EVENT_START = Some (VDatetime s) ->
  event !! EVENT_END = Some (VDatetime e) ->
  parse_datetime_to_roborock_datetime s e = (s, e) ->
  EVENT_SCHEMA event = Return event
  /\ async_update_event self uid event recurrence_id recurrence_range w
     = after_one_call (update_call self s e) w
  /\ async_create_event self event w
     = after_one_call (update_call self s e) w.
Proof.
  intros Hapart ((t & Hsum) & Hplain) Hs He Hp.
  assert (forall k, k ∈ EVENT_KEYS -> k ∉ ENTITY_SERVICE_FIELDS.*1) as Ha
    by exact Hapart.
  assert (EVENT_SCHEMA event = Return event) as Hschema.
  { unfold EVENT_SCHEMA, Schema_All.
    rewrite mapping_schema_identity.
    - rewrite (has_roborock_interval_datetimes _ _ _ _ _ _ _ Hs He Hp).
      rewrite !datetime_eqb_refl. reflexivity.
    - intros k v Hk.
      destruct (Hplain k v Hk) as [-> | [-> | [-> | (Hin & t' & ->)]]].
      + rewrite check_item_datetime; [|tauto|].
        * rewrite Hs in Hk. injection Hk as <-. reflexivity.
        * apply Ha. apply (bool_decide_unpack _). vm_compute. exact I.
      + rewrite check_item_datetime; [|tauto|].
        * rewrite He in Hk. injection Hk as <-. reflexivity.
        * apply Ha. apply (bool_decide_unpack _). vm_compute. exact I.
      + rewrite check_item_string.
        * rewrite Hsum in Hk. injection Hk as <-. reflexivity.
        * left.
        * apply Ha. apply (bool_decide_unpack _). vm_compute. exact I.
      + rewrite check_item_string.
        * reflexivity.
        * right. exact Hin.
        * apply Ha. unfold EVENT_KEYS. do 3 right. exact Hin.
    - intros k Hr.
      destruct (EVENT_SCHEMA_requires_inv k Hr) as [-> | [-> | ->]]; eauto. }
  split; [exact Hschema|].
  assert (async_update_event self uid event recurrence_id recurrence_range w
          = after_one_call (update_call self s e) w) as Hrun.
  { unfold async_update_event, mbind, M_bind, pure, getitem.
    rewrite Hschema, Hs, He. simpl.
    unfold send, send_command, after_one_call, update_call.
    destruct (transport _ _) as [r d]. simpl. destruct r; reflexivity. }
  split; [exact Hrun|].
  unfold async_create_event.
  unfold async_update_event, mbind, M_bind, pure, getitem.
  rewrite Hschema, Hs, He. simpl.
  unfold send, send_command, after_one_call, update_call.
  destruct (transport _ _) as [r d]. simpl. destruct r; reflexivity.
Qed.

Lemma plain_payload_updates_witness :
  @EVENT_SCHEMA sample_host payload_22_15 = Return payload_22_15
  /\ @async_update_event sample_host sample_calendar "dnd_timer"
       payload_22_15 None None sample_world
     = @after_one_call sample_host
         (update_call sample_calendar at_22_15 at_06_05) sample_world
  /\ @async_create_event sample_host sample_calendar payload_22_15
       sample_world
     = @after_one_call sample_host
         (update_call sample_calendar at_22_15 at_06_05) sample_world.
Proof.
  apply (@plain_payload_updates sample_host sample_calendar "dnd_timer"
           payload_22_15 None None sample_world at_22_15 at_06_05).
  - intros k Hk.
    repeat (apply elem_of_cons in Hk as [->|Hk];
            [apply (bool_decide_unpack _); vm_compute; exact I|]).
    inversion Hk.
  - split; [exists "Quiet"; reflexivity|].
    intros k v. unfold payload_22_15.
    rewrite !lookup_insert. repeat case_decide; subst; auto.
    rewrite lookup_empty. discriminate.
  - reflexivity.
  - reflexivity.
  - reflexivity.
Defined.

(** ** The entity *)

(** X15: a refresh issues one command, the fetch of the timer kind; when
    the transport replies, the entity is the same but for the timer it
    holds, which is the reply, so that listing its events from then on
    gives none when the reply is a disabled timer or [None] and, when it is
    an enabled timer, the event of the reply if the host's validation lets
    it through and the error of the validation if not; when the transport
    raises, so does the refresh. *)
Theorem async_update_refreshes_event `{Host} (self : RoborockCalendar)
    (w : world) :
  let c := probe (coordinator self) (entity_description self) in
  let w' := {| device := (transport (device w) c).2;
               calls := calls w ++ [(c, (transport (device w) c).1)];
               added := added w |} in
  match (transport (device w) c).1 with
  | Replied reply =>
      exists self',
        async_update self w = (Return self', w')
        /\ _event_value self' = reply
        /\ unique_id self' = unique_id self
        /\ coordinator self' = coordinator self
        /\ entity_description self' = entity_description self
        /\ forall hass start_date end_date,
             async_get_events self' hass start_date end_date
             = match reply with
               | Some t =>
                   if enabled t then
                     match CalendarEvent_post_init (event_of_timer self t) with
                     | Return _ => Return [event_of_timer self t]
                     | Raise x => Raise x
                     end
                   else Return []
               | None => Return []
               end
  | Failed x => async_update self w = (Raise x, w')
  end.
Proof.
  unfold async_update, mbind, M_bind, send_command. simpl.
  fold (probe (coordinator self) (entity_description self)).
  destruct (transport _ _) as [r d]. simpl. destruct r as [reply|x].
  - eexists. split; [reflexivity|]. repeat (split; [reflexivity|]).
    intros hass start_date end_date.
    unfold async_get_events, event, CalendarEvent_init. simpl.
    destruct reply as [t|]; [|reflexivity].
    destruct (enabled t); [|reflexivity].
    fold (event_of_timer self t).
    destruct (CalendarEvent_post_init (event_of_timer self t)); reflexivity.
  - reflexivity.
Qed.

(** X16: the listing returns the empty list exactly when the entity holds
    no timer or a disabled one, and a list it returns never has more than
    one event. *)
Theorem get_events_empty_iff `{Host} (self : RoborockCalendar) (hass : unit)
    (start_date end_date : datetime) :
  (async_get_events self hass start_date end_date = Return []
   <-> forall t, _event_value self = Some t -> enabled t = false)
  /\ forall l, async_get_events self hass start_date end_date = Return l ->
       (length l <= 1)%nat.
Proof.
  unfold async_get_events, event, CalendarEvent_init.
  destruct (_event_value self) as [t|].
  - destruct (enabled t) eqn:Ht.
    + destruct (CalendarEvent_post_init _); simpl.
      * split; [split; [discriminate|]|intros l [= <-]; simpl; lia].
        intros Hall. specialize (Hall t eq_refl). congruence.
      * split; [split; [discriminate|]|discriminate].
        intros Hall. specialize (Hall t eq_refl). congruence.
    + split; [split; [|reflexivity]|intros l [= <-]; simpl; lia].
      intros _ t' [= <-]. exact Ht.
  - split; [split; [|reflexivity]|intros l [= <-]; simpl; lia].
    intros _ t [=].
Qed.

Lemma get_events_empty_iff_witness :
  (length [ {| start := VDatetime at_22_15;
               end_ := VDatetime at_06_05;
               summary := "Do not disturb";
               description := "Do not disturb";
               location := "Home";
               recurrence_id := "dnd_timer";
               rrule := "FREQ=DAILY";
               uid := "dnd_timer" |} ] <= 1)%nat
  /\ forall t, _event_value (overnight_calendar false) = Some t ->
       enabled t = false.
Proof.
  destruct (@get_events_empty_iff sample_host (overnight_calendar true) tt
              at_22_15 at_06_05) as [_ Hone].
  destruct (@get_events_empty_iff sample_host (overnight_calendar false) tt
              at_22_15 at_06_05) as [[Hempty _] _].
  split.
  - apply Hone. reflexivity.
  - apply Hempty. reflexivity.
Defined.

(** X17: deleting issues one command, the delete command of the timer
    kind without parameters, whatever the uid and the recurrence it is
    asked to delete and without validating anything; it returns when the
    transport replies and raises what it raises.  The service does the
    same. *)
Theorem delete_event_sends_delete_command `{Host} (self : RoborockCalendar)
    (uid : string) (recurrence_id recurrence_range : option string)
    (w : world) :
  async_delete_event self uid recurrence_id recurrence_range w
    = after_one_call (delete_call self) w
  /\ async_delete_event_service self w = after_one_call (delete_call self) w.
Proof.
  unfold async_delete_event_service, async_delete_event, mbind, M_bind,
    send, send_command, after_one_call.
  fold (delete_call self).
  destruct (transport (device w) (delete_call self)) as [r d]. simpl.
  destruct r; split; reflexivity.
Qed.

(** ** Setup: what it never does *)

Lemma VACUUM_CALENDARS_fetch (c : Coordinator)
    (sd : string * RoborockCalendarDescription) (r : response) :
  sd ∈ VACUUM_CALENDARS -> is_fetch (probe c sd.2, r).
Proof.
  intros Hin. unfold is_fetch. simpl. split; [reflexivity|].
  repeat (apply elem_of_cons in Hin as [->|Hin]; [simpl; auto|]).
  inversion Hin.
Qed.

(** The loop over the timer kinds issues fetches only, hands nothing to
    [async_add_entities], and keeps the entities it collects as setup builds
    them. *)
Lemma probe_sensors_keeps `{Host} (cs : list Coordinator) (c : Coordinator)
    (info : RoborockHassDeviceInfo)
    (sensors : list (string * RoborockCalendarDescription)) :
  c ∈ cs -> data c = Some info ->
  (forall sd, sd ∈ sensors -> sd ∈ VACUUM_CALENDARS) ->
  forall (entities : list RoborockCalendar) (w : world),
    Forall (set_up_for cs) entities ->
    exists log,
      calls (probe_sensors c info (slugify (duid info)) sensors entities w).2
        = calls w ++ log
      /\ Forall is_fetch log
      /\ added (probe_sensors c info (slugify (duid info)) sensors
                  entities w).2 = added w
      /\ forall entities',
           (probe_sensors c info (slugify (duid info)) sensors entities w).1
             = Return entities' ->
           Forall (set_up_for cs) entities'.
Proof.
  intros Hc Hdata.
  induction sensors as [|[sensor description] sensors IH];
    intros Hsub entities w Hes.
  - exists []. simpl. rewrite app_nil_r. repeat split; [constructor|].
    intros entities' [= <-]. exact Hes.
  - assert ((sensor, description) ∈ VACUUM_CALENDARS) as Hsd
      by (apply Hsub; left).
    assert (forall sd, sd ∈ sensors -> sd ∈ VACUUM_CALENDARS) as Hsub'
      by (intros sd Hin; apply Hsub; right; exact Hin).
    simpl. unfold mbind, M_bind, suppress_RoborockException, send_command.
    fold (probe c description).
    destruct (transport (device w) (probe c description)) as [r d] eqn:Ht.
    pose proof (VACUUM_CALENDARS_fetch c (sensor, description) r Hsd) as Hf.
    destruct r as [[value|]|x].
    + match goal with
      | |- context [probe_sensors _ _ _ _ (entities ++ [?e]) ?w'] =>
          assert (Forall (set_up_for cs) (entities ++ [e])) as Hes';
          [|destruct (IH Hsub' _ w' Hes') as (log & Hl & Hfl & Ha & He)]
      end.
      { apply Forall_app. split; [exact Hes|]. constructor; [|constructor].
        unfold set_up_for. simpl. rewrite Hdata.
        split; [eauto|]. split; [exact Hc|]. split; [reflexivity|].
        exists (sensor, description). auto. }
      exists ((probe c description, Replied (Some value)) :: log).
      rewrite Hl, Ha. simpl. rewrite <- app_assoc.
      repeat split; [constructor; assumption|exact He].
    + match goal with
      | |- context [probe_sensors _ _ _ _ ?es ?w'] =>
          destruct (IH Hsub' es w' Hes) as (log & Hl & Hfl & Ha & He)
      end.
      exists ((probe c description, Replied None) :: log).
      rewrite Hl, Ha. simpl. rewrite <- app_assoc.
      repeat split; [constructor; assumption|exact He].
    + destruct x;
        try (eexists; simpl; split; [reflexivity|];
             split; [constructor; [assumption|constructor]|];
             split; [reflexivity|discriminate]).
      match goal with
      | |- context [probe_sensors _ _ _ _ ?es ?w'] =>
          destruct (IH Hsub' es w' Hes) as (log & Hl & Hfl & Ha & He)
      end.
      exists ((probe c description, Failed RoborockException) :: log).
      rewrite Hl, Ha. simpl. rewrite <- app_assoc.
      repeat split; [constructor; assumption|exact He].
Qed.

Lemma setup_coordinators_keeps `{Host} (all cs : list Coordinator) :
  (forall c, c ∈ cs -> c ∈ all) ->
  forall (entities : list RoborockCalendar) (w : world),
    Forall (set_up_for all) entities ->
    exists log,
      calls (setup_coordinators cs entities w).2 = calls w ++ log
      /\ Forall is_fetch log
      /\ added (setup_coordinators cs entities w).2 = added w
      /\ forall entities',
           (setup_coordinators cs entities w).1 = Return (Some entities') ->
           Forall (set_up_for all) entities'.
Proof.
  induction cs as [|c cs IH]; intros Hsub entities w Hes.
  - exists []. simpl. rewrite app_nil_r. repeat split; [constructor|].
    intros entities' [= <-]. exact Hes.
  - cbn [setup_coordinators].
    destruct (data c) as [info|] eqn:Hdata.
    2:{ exists []. simpl. rewrite app_nil_r.
        repeat split; [constructor|discriminate]. }
    destruct (negb _).
    { exists []. simpl. rewrite app_nil_r.
      repeat split; [constructor|discriminate]. }
    destruct (probe_sensors_keeps all c info VACUUM_CALENDARS
                (Hsub c (list_elem_of_here _ _)) Hdata (fun _ Hin => Hin)
                entities w Hes) as (log1 & Hl1 & Hf1 & Ha1 & He1).
    unfold mbind, M_bind.
    destruct (probe_sensors c info (slugify (duid info)) VACUUM_CALENDARS
                entities w) as [[entities1|x] w1].
    + simpl in Hl1, Ha1. cbn beta iota.
      destruct (IH (fun c' Hin => Hsub c' (list_elem_of_further _ _ _ Hin))
                  entities1 w1 (He1 _ eq_refl))
        as (log2 & Hl2 & Hf2 & Ha2 & He2).
      exists (log1 ++ log2). rewrite Hl2, Ha2, Hl1, Ha1, app_assoc.
      repeat split; [apply Forall_app; auto|exact He2].
    + exists log1. simpl in *. rewrite Hl1, Ha1.
      repeat split; [exact Hf1|discriminate].
Qed.

(** X18: whatever the device does and however setup ends, it issues
    nothing but fetches, the two get commands without parameters, never an
    update or a delete command; it hands entities over at most once, and
    not at all when it raises. *)
Theorem setup_only_fetches `{Host} (cs : list Coordinator) (w : world) :
  exists log handed,
    calls (async_setup_entry cs w).2 = calls w ++ log
    /\ Forall is_fetch log
    /\ added (async_setup_entry cs w).2 = added w ++ handed
    /\ (length handed <= 1)%nat
    /\ forall x, (async_setup_entry cs w).1 = Raise x -> handed = [].
Proof.
  destruct (setup_coordinators_keeps cs cs (fun _ Hin => Hin) [] w
              (List.Forall_nil _)) as (log & Hl & Hf & Ha & _).
  unfold async_setup_entry, mbind, M_bind.
  destruct (setup_coordinators cs [] w) as [[[entities|]|x] w1];
    simpl in Hl, Ha.
  - exists log, [entities]. simpl. rewrite Hl, Ha.
    repeat split; [exact Hf|lia|discriminate].
  - exists log, []. simpl. rewrite Hl, Ha, app_nil_r.
    repeat split; [exact Hf|lia].
  - exists log, []. simpl. rewrite Hl, Ha, app_nil_r.
    repeat split; [exact Hf|lia].
Qed.

(** X19: every entity that setup hands over holds a timer, the same under
    [_event_value] and [event_value] and never [None]; it belongs to one of
    the coordinators given and carries that coordinator's data, it has the
    description of one of the timer kinds of the table, and its unique id is
    the name of that kind, an underscore and the slug of the device's
    duid. *)
Theorem setup_entities_hold_timers `{Host} (cs : list Coordinator)
    (w : world) (entities : list RoborockCalendar) :
  entities ∈ drop (length (added w)) (added (async_setup_entry cs w).2) ->
  Forall (set_up_for cs) entities.
Proof.
  destruct (setup_coordinators_keeps cs cs (fun _ Hin => Hin) [] w
              (List.Forall_nil _)) as (log & _ & _ & Ha & He).
  unfold async_setup_entry, mbind, M_bind.
  destruct (setup_coordinators cs [] w) as [[[entities1|]|x] w1];
    simpl in Ha, He; simpl; rewrite Ha.
  - rewrite drop_app_length. intros Hin.
    apply list_elem_of_singleton in Hin as ->. apply He. reflexivity.
  - rewrite drop_all. intros Hin. inversion Hin.
  - rewrite drop_all. intros Hin. inversion Hin.
Qed.

Lemma setup_entities_hold_timers_witness :
  Forall (@set_up_for sample_host [sample_coordinator])
    [set_event_value sample_calendar (Some sample_timer)].
Proof.
  apply (@setup_entities_hold_timers sample_host [sample_coordinator]
           sample_world).
  vm_compute. left.
Defined.

Lemma setup_coordinators_app `{Host} (pre rest : list Coordinator) :
  fails_softly ->
  Forall (fun c => exists info, data c = Some info
                     /\ model info ∈ MODELS_VACUUM_WITH_MOP) pre ->
  forall (entities : list RoborockCalendar) (w : world),
  exists log d' entities',
    log.*1 = map (fun p => probe p.1 p.2.2) (probes_of pre)
    /\ setup_coordinators (pre ++ rest) entities w
       = setup_coordinators rest entities'
           {| device := d'; calls := calls w ++ log; added := added w |}.
Proof.
  intros Hsoft Hpre.
  induction Hpre as [|c pre (info & Hdata & Hmodel) _ IH]; intros entities w.
  - exists [], (device w), entities. split; [reflexivity|]. simpl.
    rewrite app_nil_r. destruct w; reflexivity.
  - rewrite <- app_comm_cons. cbn [setup_coordinators]. rewrite Hdata.
    rewrite (bool_decide_eq_true_2 _ Hmodel). cbn [negb].
    unfold mbind at 1, M_bind at 1.
    destruct (probe_sensors_log c info VACUUM_CALENDARS Hsoft Hdata
                entities w) as (log1 & d1 & Hl1 & ->).
    match goal with
    | |- context [setup_coordinators _ ?es ?w'] =>
        destruct (IH es w') as (log2 & d2 & entities2 & Hl2 & ->)
    end.
    exists (log1 ++ log2), d2, entities2. split.
    + rewrite fmap_app, Hl1, Hl2.
      change (probes_of (c :: pre))
        with (map (pair c) VACUUM_CALENDARS ++ probes_of pre).
      rewrite map_app, map_map. reflexivity.
    + simpl. rewrite <- app_assoc. reflexivity.
Qed.

(** X20: setup stops at the first coordinator whose model is not in the
    table of vacuums with a mop: it returns without raising and without
    handing any entity over, those collected from the coordinators before
    it included, and the coordinators after it are not probed. *)
Theorem setup_stops_at_other_model `{Host} (pre post : list Coordinator)
    (c : Coordinator) (info : RoborockHassDeviceInfo) (w : world) :
  fails_softly ->
  Forall (fun c => exists info, data c = Some info
                     /\ model info ∈ MODELS_VACUUM_WITH_MOP) pre ->
  data c = Some info ->
  model info ∉ MODELS_VACUUM_WITH_MOP ->
  exists log d',
    log.*1 = map (fun p => probe p.1 p.2.2) (probes_of pre)
    /\ async_setup_entry (pre ++ c :: post) w
       = (Return tt,
          {| device := d'; calls := calls w ++ log; added := added w |}).
Proof.
  intros Hsoft Hpre Hdata Hmodel.
  destruct (setup_coordinators_app pre (c :: post) Hsoft Hpre [] w)
    as (log & d' & entities' & Hl & Hrun).
  exists log, d'. split; [exact Hl|].
  unfold async_setup_entry, mbind, M_bind. rewrite Hrun.
  cbn [setup_coordinators]. rewrite Hdata.
  rewrite (bool_decide_eq_false_2 _ Hmodel). reflexivity.
Qed.

Lemma setup_stops_at_other_model_witness :
  exists log d',
    log.*1 = map (fun p => probe p.1 p.2.2) (probes_of [sample_coordinator])
    /\ @async_setup_entry sample_host
         ([sample_coordinator] ++ other_coordinator :: [sample_coordinator])
         sample_world
       = (Return tt,
          @mk_world sample_host d' (calls sample_world ++ log)
            (added sample_world)).
Proof.
  apply (@setup_stops_at_other_model sample_host [sample_coordinator]
           [sample_coordinator] other_coordinator
           {| model := "roborock.vacuum.s5"; duid := "xyz" |} sample_world).
  - intros d c e d'. unfold transport, sample_host, sample_transport.
    destruct (command c); intros [= <- _]; reflexivity.
  - constructor; [|constructor].
    exists {| model := "roborock.vacuum.a15"; duid := "abc" |}.
    split; [reflexivity|]. apply (bool_decide_unpack _). vm_compute. exact I.
  - reflexivity.
  - apply (bool_decide_unpack _). vm_compute. exact I.
Defined.

(** X21: only the vendor's exception is suppressed: when the first fetch
    of setup is answered with any other exception, setup raises that
    exception after this one command and hands nothing over. *)
Theorem setup_raises_other_exception `{Host} (c : Coordinator)
    (cs : list Coordinator) (info : RoborockHassDeviceInfo) (w : world)
    (x : exn) (d' : Dev) :
  let fetch := {| via := api c; command := GET_VALLEY_ELECTRICITY_TIMER;
                  params := None; return_type := ValleyElectricityTimer |} in
  data c = Some info ->
  model info ∈ MODELS_VACUUM_WITH_MOP ->
  transport (device w) fetch = (Failed x, d') ->
  x <> RoborockException ->
  async_setup_entry (c :: cs) w
  = (Raise x,
     {| device := d'; calls := calls w ++ [(fetch, Failed x)];
        added := added w |}).
Proof.
  intros fetch Hdata Hmodel Ht Hx.
  unfold async_setup_entry. cbn [setup_coordinators]. rewrite Hdata.
  rewrite (bool_decide_eq_true_2 _ Hmodel). cbn [negb].
  unfold VACUUM_CALENDARS. cbn [probe_sensors].
  unfold mbind, M_bind, suppress_RoborockException, send_command.
  cbn [get_command base_class]. fold fetch. rewrite Ht.
  destruct x; try reflexivity. congruence.
Qed.

Lemma setup_raises_other_exception_witness :
  @async_setup_entry broken_host [sample_coordinator]
    (@mk_world broken_host 0%nat [] [])
  = (Raise (OtherException "ValueError"),
     @mk_world broken_host 1%nat
       [ ({| via := "vacuum"; command := GET_VALLEY_ELECTRICITY_TIMER;
             params := None; return_type := ValleyElectricityTimer |},
          Failed (OtherException "ValueError")) ] []).
Proof.
  apply (@setup_raises_other_exception broken_host sample_coordinator []
           {| model := "roborock.vacuum.a15"; duid := "abc" |}
           (@mk_world broken_host 0%nat [] [])
           (OtherException "ValueError") 1%nat).
  - reflexivity.
  - apply (bool_decide_unpack _). vm_compute. exact I.
  - reflexivity.
  - discriminate.
Defined.
